(** * A wedding-gallery file viewer on top of UploadThing

    Shallow embedding of the two pieces of the repository:

    - the listing/deletion facade, [app/api/uploadthing/route.ts]
      (handlers [GET], [DELETE] and [PATCH]);
    - the client-side viewer, the [FileViewer] React component
      ([getFileType], [loadFiles], [filteredFiles], [fileCounts],
      [deleteFile], [handleDeleteFile], [handleDeleteAllFiles]).

    Both source files hold two revisions of their module; the embedding
    follows the first one, the revision with text files, deletion and the
    placeholder metadata.

    JavaScript strings are byte strings (UTF-8); the only characters the
    code inspects are ASCII ('.', the MIME prefixes, the extensions), so
    splitting and prefix tests on bytes agree with the ones on UTF-16 code
    units.  [console.error] and [console.log] calls are not modelled. *)

From Stdlib Require Import String Ascii List Bool Arith Lia DecimalString.
Import ListNotations.
Open Scope string_scope.
Open Scope list_scope.

(* ================================================================== *)
(** * JavaScript values and promises *)

Module Js.

(** What a [catch (error)] clause can receive: an [Error] object with
    its message, or any other thrown value. *)
Inductive Thrown : Type :=
| Error (message : string)
| NonError.

(** The result of awaiting a promise. *)
Inductive Outcome (A : Type) : Type :=
| Resolved (a : A)
| Rejected (e : Thrown).
Arguments Resolved {A} a.
Arguments Rejected {A} e.

(** Truthiness of a string: every string but the empty one. *)
Definition nonempty (s : string) : bool := negb (s =? "").

(** [error instanceof Error ? error.message : 'Bilinmeyen hata'] *)
Definition errorMessage (error : Thrown) : string :=
  match error with
  | Error message => message
  | NonError => "Bilinmeyen hata"
  end.

End Js.

(* ================================================================== *)
(** * The provider SDK, [uploadthing/server] *)

Module UT.

(** One entry of the provider's listing, with the properties the facade
    reads. *)
Record UploadedFile : Type := {
  id : string;
  key : string;
  name : string;
  status : string;
  customId : option string        (* [string | null] *)
}.

(** A value as the handler may find it at run time in place of the
    listing: the guard of [GET] tests it for truthiness before any use.
    Numbers are integers here (no NaN, which is falsy like 0). *)
#[warnings="-register-all"]
Inductive JsValue : Type :=
| JsUndefined
| JsNull
| JsBool (b : bool)
| JsNumber (n : nat)
| JsString (s : string)
| JsArray (items : list UploadedFile)
| JsObject (fields : list (string * JsValue)).

Definition truthy (v : JsValue) : bool :=
  match v with
  | JsUndefined | JsNull => false
  | JsBool b => b
  | JsNumber n => negb (n =? 0)%nat
  | JsString s => Js.nonempty s
  | JsArray _ | JsObject _ => true
  end.

Fixpoint lookup (p : string) (fields : list (string * JsValue)) : JsValue :=
  match fields with
  | [] => JsUndefined
  | (q, v) :: rest => if (q =? p)%string then v else lookup p rest
  end.

(** [v.p] for a truthy [v] and a property name [p] that no primitive
    and no array defines (here: [files]). *)
Definition prop (v : JsValue) (p : string) : JsValue :=
  match v with
  | JsObject fields => lookup p fields
  | _ => JsUndefined
  end.

(** The object [deleteFiles] resolves to. *)
Record DeleteFileResponse : Type := {
  success : bool;
  deletedCount : nat
}.

(** The [UTApi] instance, as a state machine over the provider's state:
    each call answers (or rejects) and moves the provider on. *)
Class UTApi (World : Type) : Type := {
  listFiles : World -> Js.Outcome JsValue * World;
  deleteFiles : list string -> World -> Js.Outcome DeleteFileResponse * World
}.

(** The provider calls a handler has made, oldest first. *)
Inductive Call : Type :=
| ListFiles
| DeleteFiles (keys : list string).

End UT.

(* ================================================================== *)
(** * The facade, [route.ts] *)

Module Facade.
Import Js.

(** A record of the listing the facade sends to the client. *)
Module FileRecord.
Record t : Type := {
  id : string;
  key : string;
  name : string;
  url : string;
  status : string;
  customId : option string;
  uploadedAt : string;
  type : string;
  size : nat
}.
End FileRecord.
Abbreviation FileRecord := FileRecord.t.

(** A record whose URL follows the template over its key and whose
    type and size are the placeholders. *)
Definition placeholders (r : FileRecord) : Prop :=
  FileRecord.url r = ("https://utfs.io/f/" ++ FileRecord.key r)%string /\
  FileRecord.type r = "unknown" /\
  FileRecord.size r = 0.

(** The JSON bodies the three handlers send. *)
Inductive Body : Type :=
| Listing (success : bool) (files : list FileRecord) (total : nat)
    (* { success, files, total } *)
| ListingError (error details : string)
    (* { success: false, error, details, files: [], total: 0 } *)
| Deleted (message deletedKey : string)
    (* { success: true, message, deletedKey } *)
| Updated (message updatedKey : string) (updatedData : UT.JsValue)
    (* { success: true, message, updatedKey, updatedData } *)
| Failure (error : string)
    (* { success: false, error } *)
| FailureDetails (error details : string).
    (* { success: false, error, details } *)

Record Response : Type := {
  body : Body;
  status : nat
}.

(** [NextResponse.json(body)] and [NextResponse.json(body, { status })] *)
Definition json (b : Body) : Response := {| body := b; status := 200 |}.
Definition json_status (b : Body) (s : nat) : Response :=
  {| body := b; status := s |}.

(** The [success] field of a body. *)
Definition success (b : Body) : bool :=
  match b with
  | Listing s _ _ => s
  | Deleted _ _ | Updated _ _ _ => true
  | ListingError _ _ | Failure _ | FailureDetails _ _ => false
  end.

(** The [files] and [total] fields of a body that has them. *)
Definition files (b : Body) : option (list FileRecord) :=
  match b with
  | Listing _ fs _ => Some fs
  | ListingError _ _ => Some []
  | _ => None
  end.

Definition total (b : Body) : option nat :=
  match b with
  | Listing _ _ n => Some n
  | ListingError _ _ => Some 0
  | _ => None
  end.

(** A request, after [new URL(request.url)]: its query parameters in
    order, and what [request.json()] resolves to. *)
Record NextRequest : Type := {
  searchParams : list (string * string);
  request_json : Outcome UT.JsValue
}.

(** [searchParams.get(name)]: the first value of that name, or null. *)
Fixpoint get (params : list (string * string)) (name : string) : option string :=
  match params with
  | [] => None
  | (n, v) :: rest => if (n =? name)%string then Some v else get rest name
  end.

Section Handlers.
Context {World : Type} {utapi : UT.UTApi World}.

(** [new Date().toISOString()] at the [i]-th reading of the clock
    within one request. *)
Variable now : nat -> string.

(** The provider's state and the calls made to it so far. *)
Record Env : Type := {
  world : World;
  calls : list UT.Call
}.

(** Handler code: it reads and moves the provider, and may throw. *)
Definition Handler (A : Type) : Type := Env -> Outcome A * Env.

Definition ret {A} (a : A) : Handler A := fun env => (Resolved a, env).

Definition throw {A} (e : Thrown) : Handler A := fun env => (Rejected e, env).

Definition bind {A B} (m : Handler A) (k : A -> Handler B) : Handler B :=
  fun env =>
    match m env with
    | (Resolved a, env') => k a env'
    | (Rejected e, env') => (Rejected e, env')
    end.

(** [try { m } catch (error) { h error }] *)
Definition try_catch {A} (m : Handler A) (h : Thrown -> Handler A) : Handler A :=
  fun env =>
    match m env with
    | (Resolved a, env') => (Resolved a, env')
    | (Rejected e, env') => h e env'
    end.

Notation "x <- m ;; k" := (bind m (fun x => k))
  (at level 61, m at next level, right associativity).

(** [await utapi.listFiles()] *)
Definition utapi_listFiles : Handler UT.JsValue :=
  fun env =>
    let (r, w) := UT.listFiles (world env) in
    (r, {| world := w; calls := calls env ++ [UT.ListFiles] |}).

(** [await utapi.deleteFiles(keys)] *)
Definition utapi_deleteFiles (keys : list string) : Handler UT.DeleteFileResponse :=
  fun env =>
    let (r, w) := UT.deleteFiles keys (world env) in
    (r, {| world := w; calls := calls env ++ [UT.DeleteFiles keys] |}).

(** The callback of [response.files.map]; [i] is the position of the
    element, which is also the number of clock readings before it. *)
Definition format (i : nat) (file : UT.UploadedFile) : FileRecord :=
  {| FileRecord.id := UT.id file;
     FileRecord.key := UT.key file;
     FileRecord.name := UT.name file;
     FileRecord.url := "https://utfs.io/f/" ++ UT.key file;
     FileRecord.status := UT.status file;
     FileRecord.customId := match UT.customId file with
                 | Some c => if nonempty c then Some c else None
                 | None => None
                 end;
     FileRecord.uploadedAt := now i;
     FileRecord.type := "unknown";
     FileRecord.size := 0 |}.

Fixpoint map_from (i : nat) (items : list UT.UploadedFile) : list FileRecord :=
  match items with
  | [] => []
  | file :: rest => format i file :: map_from (S i) rest
  end.

(** [v.map(file => ...)]: only an array has a [map] method; on any
    other truthy value the call throws a [TypeError]. *)
Definition files_map (v : UT.JsValue) : Handler (list FileRecord) :=
  match v with
  | UT.JsArray items => ret (map_from 0 items)
  | _ => throw (Error "response.files.map is not a function")
  end.

Definition GET : Handler Response :=
  try_catch
    (response <- utapi_listFiles ;;
     if (if UT.truthy response                (* [!response || !response.files] *)
         then negb (UT.truthy (UT.prop response "files"))
         else true)
     then ret (json (Listing true [] 0))
     else
       formattedFiles <- files_map (UT.prop response "files") ;;
       ret (json (Listing true formattedFiles (length formattedFiles))))
    (fun error =>
       ret (json_status
              (ListingError "Dosyalar yüklenirken hata oluştu" (errorMessage error))
              500)).

Definition DELETE (request : NextRequest) : Handler Response :=
  try_catch
    (let fileKey := get (searchParams request) "key" in
     match fileKey with                    (* [if (!fileKey)] *)
     | Some k =>
         if nonempty k then
           deleteResponse <- utapi_deleteFiles [k] ;;
           if UT.success deleteResponse
           then ret (json (Deleted "Dosya başarıyla silindi" k))
           else ret (json_status (Failure "Dosya silinemedi") 400)
         else ret (json_status (Failure "Dosya anahtarı (key) gerekli") 400)
     | None => ret (json_status (Failure "Dosya anahtarı (key) gerekli") 400)
     end)
    (fun error =>
       ret (json_status
              (FailureDetails "Dosya silinirken hata oluştu" (errorMessage error))
              500)).

Definition PATCH (request : NextRequest) : Handler Response :=
  try_catch
    (let fileKey := get (searchParams request) "key" in
     body <- (fun env => (request_json request, env)) ;;
     match fileKey with
     | Some k =>
         if nonempty k
         then ret (json (Updated "Dosya bilgileri güncellendi" k body))
         else ret (json_status (Failure "Dosya anahtarı (key) gerekli") 400)
     | None => ret (json_status (Failure "Dosya anahtarı (key) gerekli") 400)
     end)
    (fun error =>
       ret (json_status
              (FailureDetails "Dosya güncellenirken hata oluştu" (errorMessage error))
              500)).

End Handlers.

Arguments Env World : clear implicits.
Arguments Handler World A : clear implicits.

End Facade.

(* ================================================================== *)
(** * The viewer, the [FileViewer] component *)

Module Viewer.
Import Js.

(** ['image' | 'video' | 'audio' | 'text']; the source's [null], the
    spec's "unknown", is [None] of [option FileType]. *)
Inductive FileType : Type :=
| image
| video
| audio
| text.

Definition FileType_eqb (a b : FileType) : bool :=
  match a, b with
  | image, image | video, video | audio, audio | text, text => true
  | _, _ => false
  end.

(** [interface FileData].  A record of the listing carries further
    properties ([id], [status], ...) that the viewer never reads. *)
Record FileData : Type := {
  key : string;
  name : string;
  fileName : option string;
  url : string;
  size : option nat;
  fileSize : option nat;
  type : option string;
  fileType : option FileType
}.

(** The [filter] state. *)
Inductive Filter : Type :=
| all
| only (t : FileType)
| participants.

(** ** Strings *)

(** [s.split(sep)] for a one-character separator: never empty. *)
Fixpoint split (sep : ascii) (s : string) : list string :=
  match s with
  | EmptyString => [EmptyString]
  | String c rest =>
      if Ascii.eqb c sep then EmptyString :: split sep rest
      else match split sep rest with
           | seg :: segs => String c seg :: segs
           | [] => [String c EmptyString]
           end
  end.

(** [a.pop()]: the last element, undefined on an empty array. *)
Fixpoint pop (a : list string) : option string :=
  match a with
  | [] => None
  | [x] => Some x
  | _ :: rest => pop rest
  end.

(** [m?.startsWith(p)] used as a condition: undefined is falsy. *)
Definition startsWith (m : option string) (p : string) : bool :=
  match m with
  | Some s => String.prefix p s
  | None => false
  end.

(** [a.includes(x)] *)
Definition includes (a : list string) (x : string) : bool :=
  existsb (String.eqb x) a.

(** [e || ''] *)
Definition or_empty (e : option string) : string :=
  match e with
  | Some s => s
  | None => ""
  end.

(** [toLowerCase] on the ASCII letters; it agrees with JavaScript's on
    every string without an upper-case letter outside ASCII. *)
Definition ascii_toLowerCase_char (c : ascii) : ascii :=
  let n := nat_of_ascii c in
  if ((65 <=? n)%nat && (n <=? 90)%nat)%bool then ascii_of_nat (n + 32) else c.

Fixpoint ascii_toLowerCase (s : string) : string :=
  match s with
  | EmptyString => EmptyString
  | String c rest => String (ascii_toLowerCase_char c) (ascii_toLowerCase rest)
  end.

(** ** Classification *)

Definition image_extensions : list string :=
  ["jpg"; "jpeg"; "png"; "gif"; "webp"; "svg"; "bmp"].
Definition video_extensions : list string :=
  ["mp4"; "avi"; "mov"; "wmv"; "flv"; "webm"; "mkv"].
Definition audio_extensions : list string :=
  ["mp3"; "wav"; "ogg"; "flac"; "aac"; "m4a"].
Definition text_extensions : list string :=
  ["txt"; "md"; "rtf"; "log"].

Section Classification.

(** [String.prototype.toLowerCase], whatever it does outside ASCII. *)
Variable toLowerCase : string -> string.

(** [file.name.split('.').pop()?.toLowerCase()] *)
Definition extension (file : FileData) : option string :=
  option_map toLowerCase (pop (split "." (name file))).

(** [file.type?.toLowerCase()] *)
Definition mimeType (file : FileData) : option string :=
  option_map toLowerCase (type file).

Definition getFileType (file : FileData) : option FileType :=
  let extension := extension file in
  let mimeType := mimeType file in
  if startsWith mimeType "image/" || includes image_extensions (or_empty extension)
  then Some image
  else if startsWith mimeType "video/" || includes video_extensions (or_empty extension)
  then Some video
  else if startsWith mimeType "audio/" || includes audio_extensions (or_empty extension)
  then Some audio
  else if startsWith mimeType "text/" || includes text_extensions (or_empty extension)
  then Some text
  else None.

(** The callback of [data.files.map] in [loadFiles]:
    [{...file, fileType: getFileType(file), size: file.size ||
    file.fileSize || 0, name: file.name || file.fileName ||
    'İsimsiz dosya'}]. *)
Definition nonzero (n : option nat) : option nat :=
  match n with
  | Some 0 => None
  | other => other
  end.

Definition classified (file : FileData) : FileData :=
  {| key := key file;
     name := if nonempty (name file) then name file
             else match fileName file with
                  | Some n => if nonempty n then n else "İsimsiz dosya"
                  | None => "İsimsiz dosya"
                  end;
     fileName := fileName file;
     url := url file;
     size := Some match nonzero (size file) with
                  | Some n => n
                  | None => match nonzero (fileSize file) with
                            | Some n => n
                            | None => 0
                            end
                  end;
     fileSize := fileSize file;
     type := type file;
     fileType := getFileType file |}.

(** [file.fileType !== null] *)
Definition supported (file : FileData) : bool :=
  match fileType file with
  | Some _ => true
  | None => false
  end.

(** A record the classification gives a type. *)
Definition known (file : FileData) : bool :=
  match getFileType file with
  | Some _ => true
  | None => false
  end.

(** [const supportedFiles = data.files.map(...).filter(...)] *)
Definition supportedFiles (data_files : list FileData) : list FileData :=
  List.filter supported (map classified data_files).

End Classification.

(** ** Filter view and counts *)

(** [file.fileType === filter] *)
Definition fileType_is (filter : Filter) (file : FileData) : bool :=
  match filter, fileType file with
  | only t, Some u => FileType_eqb u t
  | _, _ => false
  end.

Definition filteredFiles (filter : Filter) (files : list FileData) : list FileData :=
  match filter with
  | participants => []
  | _ => List.filter
           (fun file => match filter with
                        | all => true
                        | _ => fileType_is filter file
                        end)
           files
  end.

Module fileCounts.
Record t : Type := {
  all : nat;
  image : nat;
  video : nat;
  audio : nat;
  text : nat
}.
End fileCounts.

Definition fileCounts (files : list FileData) : fileCounts.t :=
  {| fileCounts.all := length files;
     fileCounts.image := length (List.filter (fileType_is (only image)) files);
     fileCounts.video := length (List.filter (fileType_is (only video)) files);
     fileCounts.audio := length (List.filter (fileType_is (only audio)) files);
     fileCounts.text := length (List.filter (fileType_is (only text)) files) |}.

(** ** The component's state *)

Record State : Type := {
  files : list FileData;
  loading : bool;
  error : option string;
  selectedFile : option FileData;
  filter : Filter;
  isDeletingAll : bool;
  showDeleteAllConfirm : bool;
  fileToDelete : option FileData;
  showDeleteSuccess : bool;
  deletedCountInfo : nat;
  textContent : list (string * string)
}.

(** The [useState] initial values. *)
Definition initialState : State :=
  {| files := []; loading := true; error := None; selectedFile := None;
     filter := all; isDeletingAll := false; showDeleteAllConfirm := false;
     fileToDelete := None; showDeleteSuccess := false; deletedCountInfo := 0;
     textContent := [] |}.

(** The state setters.  [setFiles] takes an updater,
    [setFiles(prevFiles => ...)]. *)
Definition setFiles (f : list FileData -> list FileData) (s : State) : State :=
  {| files := f (files s); loading := loading s; error := error s;
     selectedFile := selectedFile s; filter := filter s;
     isDeletingAll := isDeletingAll s;
     showDeleteAllConfirm := showDeleteAllConfirm s;
     fileToDelete := fileToDelete s; showDeleteSuccess := showDeleteSuccess s;
     deletedCountInfo := deletedCountInfo s; textContent := textContent s |}.

Definition setLoading (v : bool) (s : State) : State :=
  {| files := files s; loading := v; error := error s;
     selectedFile := selectedFile s; filter := filter s;
     isDeletingAll := isDeletingAll s;
     showDeleteAllConfirm := showDeleteAllConfirm s;
     fileToDelete := fileToDelete s; showDeleteSuccess := showDeleteSuccess s;
     deletedCountInfo := deletedCountInfo s; textContent := textContent s |}.

Definition setError (v : option string) (s : State) : State :=
  {| files := files s; loading := loading s; error := v;
     selectedFile := selectedFile s; filter := filter s;
     isDeletingAll := isDeletingAll s;
     showDeleteAllConfirm := showDeleteAllConfirm s;
     fileToDelete := fileToDelete s; showDeleteSuccess := showDeleteSuccess s;
     deletedCountInfo := deletedCountInfo s; textContent := textContent s |}.

Definition setSelectedFile (v : option FileData) (s : State) : State :=
  {| files := files s; loading := loading s; error := error s;
     selectedFile := v; filter := filter s;
     isDeletingAll := isDeletingAll s;
     showDeleteAllConfirm := showDeleteAllConfirm s;
     fileToDelete := fileToDelete s; showDeleteSuccess := showDeleteSuccess s;
     deletedCountInfo := deletedCountInfo s; textContent := textContent s |}.

Definition setFilter (v : Filter) (s : State) : State :=
  {| files := files s; loading := loading s; error := error s;
     selectedFile := selectedFile s; filter := v;
     isDeletingAll := isDeletingAll s;
     showDeleteAllConfirm := showDeleteAllConfirm s;
     fileToDelete := fileToDelete s; showDeleteSuccess := showDeleteSuccess s;
     deletedCountInfo := deletedCountInfo s; textContent := textContent s |}.

Definition setIsDeletingAll (v : bool) (s : State) : State :=
  {| files := files s; loading := loading s; error := error s;
     selectedFile := selectedFile s; filter := filter s;
     isDeletingAll := v;
     showDeleteAllConfirm := showDeleteAllConfirm s;
     fileToDelete := fileToDelete s; showDeleteSuccess := showDeleteSuccess s;
     deletedCountInfo := deletedCountInfo s; textContent := textContent s |}.

Definition setShowDeleteAllConfirm (v : bool) (s : State) : State :=
  {| files := files s; loading := loading s; error := error s;
     selectedFile := selectedFile s; filter := filter s;
     isDeletingAll := isDeletingAll s;
     showDeleteAllConfirm := v;
     fileToDelete := fileToDelete s; showDeleteSuccess := showDeleteSuccess s;
     deletedCountInfo := deletedCountInfo s; textContent := textContent s |}.

Definition setFileToDelete (v : option FileData) (s : State) : State :=
  {| files := files s; loading := loading s; error := error s;
     selectedFile := selectedFile s; filter := filter s;
     isDeletingAll := isDeletingAll s;
     showDeleteAllConfirm := showDeleteAllConfirm s;
     fileToDelete := v; showDeleteSuccess := showDeleteSuccess s;
     deletedCountInfo := deletedCountInfo s; textContent := textContent s |}.

Definition setShowDeleteSuccess (v : bool) (s : State) : State :=
  {| files := files s; loading := loading s; error := error s;
     selectedFile := selectedFile s; filter := filter s;
     isDeletingAll := isDeletingAll s;
     showDeleteAllConfirm := showDeleteAllConfirm s;
     fileToDelete := fileToDelete s; showDeleteSuccess := v;
     deletedCountInfo := deletedCountInfo s; textContent := textContent s |}.

Definition setDeletedCountInfo (v : nat) (s : State) : State :=
  {| files := files s; loading := loading s; error := error s;
     selectedFile := selectedFile s; filter := filter s;
     isDeletingAll := isDeletingAll s;
     showDeleteAllConfirm := showDeleteAllConfirm s;
     fileToDelete := fileToDelete s; showDeleteSuccess := showDeleteSuccess s;
     deletedCountInfo := v; textContent := textContent s |}.

Definition setTextContent (v : list (string * string)) (s : State) : State :=
  {| files := files s; loading := loading s; error := error s;
     selectedFile := selectedFile s; filter := filter s;
     isDeletingAll := isDeletingAll s;
     showDeleteAllConfirm := showDeleteAllConfirm s;
     fileToDelete := fileToDelete s; showDeleteSuccess := showDeleteSuccess s;
     deletedCountInfo := deletedCountInfo s; textContent := v |}.

(** ** The browser around the component *)

(** What [loadFiles] finds in the answer to [GET /api/uploadthing]:
    [!response.ok], or the parsed body with its [success], [files] and
    [error] fields. *)
Inductive ListReply : Type :=
| NotOk (status : string)
| Body (success : bool) (data_files : list FileData) (data_error : option string).

(** The network, as a state machine over whatever is behind it
    (facade and provider).  [fetch_delete key] is
    [fetch(`/api/uploadthing?key=${key}`, {method: 'DELETE'})] followed
    by [response.json()], giving [result.success]; either step may
    reject. *)
Class Backend (World : Type) : Type := {
  fetch_list : World -> Outcome ListReply * World;
  fetch_delete : string -> World -> Outcome bool * World;
  fetch_text : string -> World -> Outcome string * World
}.

(** Timer callbacks: [() => setShowDeleteSuccess(false)]. *)
Inductive Callback : Type :=
| HideDeleteSuccess.

Definition fire (cb : Callback) (s : State) : State :=
  match cb with
  | HideDeleteSuccess => setShowDeleteSuccess false s
  end.

(** What the component does to the outside, oldest first. *)
Inductive Effect : Type :=
| DeleteRequest (fileKey : string) (success : bool)
    (* one run of [deleteFile] and what it returned *)
| Alert (message : string)
| SetTimeout (cb : Callback) (ms : nat)
| Delay (ms : nat).
    (* [await new Promise(resolve => setTimeout(resolve, ms))] *)

Section Component.
Context {World : Type} {backend : Backend World}.
Variable toLowerCase : string -> string.

(** The running page: the component's state, the network behind it,
    and what the component has done to the outside so far. *)
Record Page : Type := {
  state : State;
  network : World;
  effects : list Effect
}.

(** Component code: it updates the page as it goes.  Every handler
    catches what it awaits, so none of them throws. *)
Definition UI (A : Type) : Type := Page -> A * Page.

Definition ret {A} (a : A) : UI A := fun p => (a, p).

Definition bind {A B} (m : UI A) (k : A -> UI B) : UI B :=
  fun p => let (a, p') := m p in k a p'.

Notation "x <- m ;; k" := (bind m (fun x => k))
  (at level 61, m at next level, right associativity).
Notation "m ;; k" := (bind m (fun _ => k))
  (at level 61, right associativity).

(** A state setter call. *)
Definition update (f : State -> State) : UI unit :=
  fun p => (tt, {| state := f (state p); network := network p;
                   effects := effects p |}).

(** A state variable, read. *)
Definition read {A} (f : State -> A) : UI A :=
  fun p => (f (state p), p).

Definition emit (e : Effect) : UI unit :=
  fun p => (tt, {| state := state p; network := network p;
                   effects := effects p ++ [e] |}).

Definition deleteFile (fileKey : string) : UI bool :=
  fun p =>
    let (result, w) := fetch_delete fileKey (network p) in
    let success := match result with
                   | Resolved success => success
                   | Rejected _ => false
                   end in
    (success, {| state := state p; network := w;
                 effects := effects p ++ [DeleteRequest fileKey success] |}).

(** [f.key !== file.key] *)
Definition other_key (file f : FileData) : bool :=
  negb (key f =? key file)%string.

(** [selectedFile?.key === file.key] *)
Definition shows (selected : option FileData) (file : FileData) : bool :=
  match selected with
  | Some s => (key s =? key file)%string
  | None => false
  end.

Definition handleDeleteFile (file : FileData) : UI unit :=
  success <- deleteFile (key file) ;;
  if success then
    update (setFiles (List.filter (other_key file))) ;;
    update (setFileToDelete None) ;;
    selected <- read selectedFile ;;
    (if shows selected file then update (setSelectedFile None) else ret tt) ;;
    update (setDeletedCountInfo 1) ;;
    update (setShowDeleteSuccess true) ;;
    emit (SetTimeout HideDeleteSuccess 4000)
  else
    emit (Alert "Dosya silinirken bir hata oluştu.").

(** The [for (const file of filesToDelete)] loop, with the counter it
    advances. *)
Fixpoint delete_each (filesToDelete : list FileData) (deletedCount : nat) : UI nat :=
  match filesToDelete with
  | [] => ret deletedCount
  | file :: rest =>
      success <- deleteFile (key file) ;;
      deletedCount <- (if success
                       then update (setFiles (List.filter (other_key file))) ;;
                            ret (S deletedCount)
                       else ret deletedCount) ;;
      emit (Delay 100) ;;
      delete_each rest deletedCount
  end.

(** Nothing inside the [try] throws, so its [catch] is not modelled;
    the [finally] runs last. *)
Definition handleDeleteAllFiles (filesToDelete : list FileData) : UI unit :=
  match filesToDelete with
  | [] => ret tt
  | _ =>
      update (setIsDeletingAll true) ;;
      deletedCount <- delete_each filesToDelete 0 ;;
      update (setDeletedCountInfo deletedCount) ;;
      update (setShowDeleteSuccess true) ;;
      emit (SetTimeout HideDeleteSuccess 4000) ;;
      update (setShowDeleteAllConfirm false) ;;
      update (setIsDeletingAll false)
  end.

Definition fetchTextContent (url : string) : UI string :=
  fun p =>
    let (result, w) := fetch_text url (network p) in
    (match result with
     | Resolved txt => txt
     | Rejected _ => "Dosya içeriği yüklenemedi."
     end,
     {| state := state p; network := w; effects := effects p |}).

(** [textContentMap[textFile.key] = content] for each text file; the
    newest binding of a key comes first. *)
Fixpoint load_text (textFiles : list FileData) (textContentMap : list (string * string))
    : UI (list (string * string)) :=
  match textFiles with
  | [] => ret textContentMap
  | textFile :: rest =>
      content <- fetchTextContent (url textFile) ;;
      load_text rest ((key textFile, content) :: textContentMap)
  end.

Definition fetch_files : UI (Outcome ListReply) :=
  fun p =>
    let (response, w) := fetch_list (network p) in
    (response, {| state := state p; network := w; effects := effects p |}).

(** [loadFiles], up to its closing [await loadParticipants()], which
    writes the participants state only. *)
Definition loadFiles : UI unit :=
  update (setLoading true) ;;
  response <- fetch_files ;;
  match response with
  | Resolved (Body true data_files _) =>
      let supportedFiles := supportedFiles toLowerCase data_files in
      update (setFiles (fun _ => supportedFiles)) ;;
      let textFiles := List.filter (fileType_is (only text)) supportedFiles in
      textContentMap <- load_text textFiles [] ;;
      update (setTextContent textContentMap)
  | Resolved (Body false _ data_error) =>
      update (setError (Some match data_error with
                             | Some e => if nonempty e then e
                                         else "Dosyalar yüklenemedi"
                             | None => "Dosyalar yüklenemedi"
                             end))
  | Resolved (NotOk status) =>
      update (setError (Some ("HTTP error! status: " ++ status)%string))
  | Rejected err =>
      update (setError (Some (errorMessage err)))
  end ;;
  update (setLoading false).

(** What can happen to a mounted component. *)
Inductive Action : Type :=
| LoadFiles
| DeleteFile (file : FileData)                 (* [handleDeleteFile(file)] *)
| DeleteAllFiles (filesToDelete : list FileData)
| DeleteFiltered                   (* [handleDeleteAllFiles(filteredFiles)] *)
| SetFilter (f : Filter)
| SetSelectedFile (file : option FileData)
| SetFileToDelete (file : option FileData)
| SetShowDeleteAllConfirm (v : bool)
| Fire (cb : Callback).

Definition perform (a : Action) : UI unit :=
  match a with
  | LoadFiles => loadFiles
  | DeleteFile file => handleDeleteFile file
  | DeleteAllFiles filesToDelete => handleDeleteAllFiles filesToDelete
  | DeleteFiltered =>
      flt <- read filter ;;
      fs <- read files ;;
      handleDeleteAllFiles (filteredFiles flt fs)
  | SetFilter f => update (setFilter f)
  | SetSelectedFile file => update (setSelectedFile file)
  | SetFileToDelete file => update (setFileToDelete file)
  | SetShowDeleteAllConfirm v => update (setShowDeleteAllConfirm v)
  | Fire cb => update (fire cb)
  end.

Fixpoint run (script : list Action) (p : Page) : Page :=
  match script with
  | [] => p
  | a :: rest => run rest (snd (perform a p))
  end.

(** The page right after the component is created. *)
Definition mount (w : World) : Page :=
  {| state := initialState; network := w; effects := [] |}.

(** The [DeleteRequest]s among some effects: key and result. *)
Fixpoint requests (es : list Effect) : list (string * bool) :=
  match es with
  | [] => []
  | DeleteRequest k ok :: rest => (k, ok) :: requests rest
  | _ :: rest => requests rest
  end.

(** The effects of [p'] that [p] did not have yet. *)
Definition since (p p' : Page) : list Effect :=
  skipn (length (effects p)) (effects p').

(** The effects of the loop over [fs] when its requests give [outs]. *)
Definition loop_effects (fs : list FileData) (outs : list bool) : list Effect :=
  flat_map (fun fo : FileData * bool =>
              [DeleteRequest (key (fst fo)) (snd fo); Delay 100])
           (combine fs outs).

(** The keys whose request succeeded, and the keys whose request
    failed. *)
Definition deleted (rs : list (string * bool)) : list string :=
  map fst (List.filter snd rs).

Definition rejected (rs : list (string * bool)) : list string :=
  map fst (List.filter (fun r => negb (snd r)) rs).

End Component.

Arguments Page World : clear implicits.
Arguments UI World A : clear implicits.

End Viewer.

(* ================================================================== *)
(** * Concrete providers, networks and records *)

Module Demo.
Import Js.

(** A provider that answers every listing with [listing] and every
    deletion with [deleting]. *)
Record Provider : Type := {
  listing : Outcome UT.JsValue;
  deleting : Outcome bool
}.

#[export] Instance provider : UT.UTApi Provider := {|
  UT.listFiles w := (listing w, w);
  UT.deleteFiles keys w :=
    (match deleting w with
     | Resolved ok => Resolved {| UT.success := ok;
                                  UT.deletedCount := if ok then length keys else 0 |}
     | Rejected e => Rejected e
     end, w)
|}.

Definition env (w : Provider) : Facade.Env Provider :=
  {| Facade.world := w; Facade.calls := [] |}.

(** A clock that stands still. *)
Definition noon (_ : nat) : string := "2025-06-01T12:00:00.000Z".

Definition uploaded (k n : string) : UT.UploadedFile :=
  {| UT.id := k; UT.key := k; UT.name := n; UT.status := "Uploaded";
     UT.customId := None |}.

(** A network that answers every listing with [listed] and deletes
    every key but the [refused] ones. *)
Record Network : Type := {
  listed : Outcome Viewer.ListReply;
  refused : list string
}.

#[export] Instance network : Viewer.Backend Network := {|
  Viewer.fetch_list w := (listed w, w);
  Viewer.fetch_delete k w :=
    (Resolved (negb (existsb (String.eqb k) (refused w))), w);
  Viewer.fetch_text _ w := (Resolved "merhaba", w)
|}.

(** A record of the listing with a key and a name, and the [type] the
    caller chooses; the URL follows the facade's template. *)
Definition record (k n : string) (ty : option string) : Viewer.FileData :=
  {| Viewer.key := k; Viewer.name := n; Viewer.fileName := None;
     Viewer.url := "https://utfs.io/f/" ++ k; Viewer.size := None;
     Viewer.fileSize := None; Viewer.type := ty; Viewer.fileType := None |}.

Definition scenario (ty : option string) : list Viewer.FileData :=
  [ record "a" "photo.jpg" ty; record "b" "song.mp3" ty; record "c" "clip.exe" ty ].

Definition serving (data_files : list Viewer.FileData) (refused : list string) : Network :=
  {| listed := Resolved (Viewer.Body true data_files None); refused := refused |}.

(** The page once the listing of the scenario has loaded. *)
Definition loaded (ty : option string) : Viewer.Page Network :=
  Viewer.run Viewer.ascii_toLowerCase [Viewer.LoadFiles]
    (Viewer.mount (serving (scenario ty) [])).

(** What the scenario promises: the "all" view holds [a], an image,
    and [b], an audio file; the counts are those of the two; and [c] is
    in no view. *)
Definition scenario_outcome (ty : option string) : Prop :=
  let files := Viewer.files (Viewer.state (loaded ty)) in
  map (fun f => (Viewer.key f, Viewer.fileType f)) (Viewer.filteredFiles Viewer.all files)
    = [("a", Some Viewer.image); ("b", Some Viewer.audio)]
  /\ Viewer.fileCounts files
    = {| Viewer.fileCounts.all := 2; Viewer.fileCounts.image := 1;
         Viewer.fileCounts.video := 0; Viewer.fileCounts.audio := 1;
         Viewer.fileCounts.text := 0 |}
  /\ forall flt, existsb (fun f => (Viewer.key f =? "c")%string)
                   (Viewer.filteredFiles flt files) = false.

End Demo.

(* ================================================================== *)
(** * The viewer: names and the other revision's types *)

Module Card.
Import Js.

(** [a.join(sep)] for a one-character separator. *)
Fixpoint join (sep : ascii) (a : list string) : string :=
  match a with
  | [] => EmptyString
  | [x] => x
  | x :: rest => x ++ String sep (join sep rest)
  end.

(** No character of [s] is [c]. *)
Fixpoint free_of (c : ascii) (s : string) : bool :=
  match s with
  | EmptyString => true
  | String d rest => negb (Ascii.eqb d c) && free_of c rest
  end.

(** [textContent[k]]: the newest binding of the key, undefined without
    one. *)
Fixpoint lookup (k : string) (textContent : list (string * string)) : option string :=
  match textContent with
  | [] => None
  | (k', v) :: rest => if (k' =? k)%string then Some v else lookup k rest
  end.


(** [getFileType] of the revision without text files. *)
Definition getFileType_without_text (toLowerCase : string -> string)
    (file : Viewer.FileData) : option Viewer.FileType :=
  let extension := Viewer.extension toLowerCase file in
  let mimeType := Viewer.mimeType toLowerCase file in
  if Viewer.startsWith mimeType "image/"
     || Viewer.includes Viewer.image_extensions (Viewer.or_empty extension)
  then Some Viewer.image
  else if Viewer.startsWith mimeType "video/"
          || Viewer.includes Viewer.video_extensions (Viewer.or_empty extension)
  then Some Viewer.video
  else if Viewer.startsWith mimeType "audio/"
          || Viewer.includes Viewer.audio_extensions (Viewer.or_empty extension)
  then Some Viewer.audio
  else None.


(** The MIME type has none of the four prefixes (or is absent). *)
Definition no_mime_evidence (mime : option string) : bool :=
  negb (Viewer.startsWith mime "image/" || Viewer.startsWith mime "video/"
        || Viewer.startsWith mime "audio/" || Viewer.startsWith mime "text/").

End Card.

(* ================================================================== *)
(** * The viewer: the participants roster *)

Module Participants.
Import Js.

(** [s.includes(needle)] *)
Fixpoint contains (needle s : string) : bool :=
  String.prefix needle s
  || match s with
     | EmptyString => false
     | String _ rest => contains needle rest
     end.

(** [s.endsWith(suffix)] *)
Fixpoint endsWith (suffix s : string) : bool :=
  (s =? suffix)%string
  || match s with
     | EmptyString => false
     | String _ rest => endsWith suffix rest
     end.

(** What [JSON.parse] makes of the participants file, as far as
    [loadParticipants] looks at it: [null], on which the property read
    throws, or another value with what its [participants] property holds,
    a list of names ([None] when the property is missing or falsy). *)
Inductive Parsed : Type :=
| JsonNull
| JsonValue (participants : option (list string)).

(** The three participants cells of the component's state. *)
Record State : Type := {
  participants : list string;
  participantsLoading : bool;
  participantsError : option string
}.

Definition initialState : State :=
  {| participants := []; participantsLoading := false; participantsError := None |}.

Definition setParticipants (v : list string) (s : State) : State :=
  {| participants := v; participantsLoading := participantsLoading s;
     participantsError := participantsError s |}.

Definition setParticipantsLoading (v : bool) (s : State) : State :=
  {| participants := participants s; participantsLoading := v;
     participantsError := participantsError s |}.

Definition setParticipantsError (v : option string) (s : State) : State :=
  {| participants := participants s; participantsLoading := participantsLoading s;
     participantsError := v |}.

(** The roster as rendered: [participants.map((participant, index) =>
    ...)] shows [index + 1] beside each name. *)
Fixpoint roster_from (index : nat) (participants : list string) : list (nat * string) :=
  match participants with
  | [] => []
  | participant :: rest => (index + 1, participant) :: roster_from (S index) rest
  end.

Definition roster (participants : list string) : list (nat * string) :=
  roster_from 0 participants.

Section Loading.
Context {World : Type} {backend : Viewer.Backend World}.

(** [String.prototype.toLowerCase] and [JSON.parse], [None] when the
    latter throws. *)
Variable toLowerCase : string -> string.
Variable JSON_parse : string -> option Parsed.

Record Page : Type := {
  state : State;
  network : World
}.

(** [(file.name || file.fileName || '').toLowerCase()] *)
Definition lowerName (file : Viewer.FileData) : string :=
  toLowerCase (if nonempty (Viewer.name file) then Viewer.name file
               else match Viewer.fileName file with
                    | Some n => n
                    | None => ""
                    end).

(** The callback of [data.files.find]. *)
Definition isParticipantsFile (file : Viewer.FileData) : bool :=
  let fileName := lowerName file in
  contains "katilimci" fileName
  || contains "katılımcı" fileName
  || contains "participant" fileName
  || endsWith ".json" fileName.

(** The callback of [data.files.filter] in the second attempt. *)
Definition isJson (file : Viewer.FileData) : bool :=
  endsWith ".json" (lowerName file).

(** [fetch(url)], the body as text, and [JSON.parse] of it ([fetch] and
    [response.json()] in the second attempt): [None] when a step throws. *)
Definition readJson (url : string) (w : World) : option Parsed * World :=
  let (r, w') := Viewer.fetch_text url w in
  (match r with
   | Resolved txt => JSON_parse txt
   | Rejected _ => None
   end, w').

Definition loadParticipants (p : Page) : Page :=
  let s := setParticipantsLoading true (state p) in
  let (response, w) := Viewer.fetch_list (network p) in
  let (s', w') :=
    match response with
    | Resolved (Viewer.Body true data_files _) =>
        match List.find isParticipantsFile data_files with
        | Some participantsFile =>
            let (participantsData, w') := readJson (Viewer.url participantsFile) w in
            (match participantsData with
             | Some (JsonValue ps) =>
                 setParticipantsError None
                   (setParticipants (match ps with Some l => l | None => [] end) s)
             | _ => setParticipantsError (Some "JSON dosyası okunamadı") s
             end, w')
        | None =>
            match List.filter isJson data_files with
            | jsonFile :: _ =>
                let (participantsData, w') := readJson (Viewer.url jsonFile) w in
                (match participantsData with
                 | Some (JsonValue (Some l)) =>
                     setParticipantsError None (setParticipants l s)
                 | Some (JsonValue None) =>
                     setParticipantsError
                       (Some "JSON dosyasında katılımcı verisi bulunamadı") s
                 | _ => setParticipantsError (Some "JSON dosyası okunamadı") s
                 end, w')
            | [] => (setParticipantsError (Some "Hiç JSON dosyası bulunamadı") s, w)
            end
        end
    | Resolved (Viewer.Body false _ _) => (s, w)
    | Resolved (Viewer.NotOk status) =>
        (setParticipantsError (Some ("HTTP error! status: " ++ status)%string) s, w)
    | Rejected err => (setParticipantsError (Some (errorMessage err)) s, w)
    end in
  {| state := setParticipantsLoading false s'; network := w' |}.

End Loading.

Arguments Page World : clear implicits.

End Participants.

(* ================================================================== *)
(** * The viewer: downloads *)

Module Downloads.
Import Js.

(** The browser as the download functions use it.  [fetch_blob url] is
    [fetch(url)] followed by [response.blob()]; [showDirectoryPicker] is
    [window.showDirectoryPicker], absent in a browser without it;
    [write_file handle name blob] is [getFileHandle(name, {create:
    true})], [createWritable()], [write(blob)] and [close()].  Each may
    reject. *)
Class Browser (World Blob Handle : Type) : Type := {
  fetch_blob : string -> World -> Outcome Blob * World;
  showDirectoryPicker : option (World -> Outcome Handle * World);
  write_file : Handle -> string -> Blob -> World -> Outcome unit * World
}.

(** What a download does to the outside, oldest first. *)
Inductive Effect : Type :=
| Saved (name : string)
    (* the file is written into the chosen directory *)
| Downloaded (name : string)
    (* a link to the blob is clicked, [link.download = file.name] *)
| Opened (url name : string)
    (* the fallback: a link to [file.url] is clicked, in a new tab *)
| Delay (ms : nat)
| AlertDone (count : nat).
    (* [alert(`${count} dosya başarıyla seçilen klasöre indirildi!`)] *)

Section Downloading.
Context {World Blob Handle : Type} {browser : Browser World Blob Handle}.

Record Page : Type := {
  isDownloadingAll : bool;
  world : World;
  effects : list Effect
}.

Definition emit (e : Effect) (p : Page) : Page :=
  {| isDownloadingAll := isDownloadingAll p; world := world p;
     effects := effects p ++ [e] |}.

Definition setIsDownloadingAll (v : bool) (p : Page) : Page :=
  {| isDownloadingAll := v; world := world p; effects := effects p |}.

Definition moved (w : World) (p : Page) : Page :=
  {| isDownloadingAll := isDownloadingAll p; world := w; effects := effects p |}.

(** [downloadFile(file, directoryHandle)]; the [catch] clause is the
    fallback link. *)
Definition downloadFile (file : Viewer.FileData) (directoryHandle : option Handle)
    (p : Page) : Page :=
  let (response, w) := fetch_blob (Viewer.url file) (world p) in
  match response with
  | Resolved blob =>
      match directoryHandle with
      | Some h =>
          let (written, w') := write_file h (Viewer.name file) blob w in
          match written with
          | Resolved _ => emit (Saved (Viewer.name file)) (moved w' p)
          | Rejected _ =>
              emit (Opened (Viewer.url file) (Viewer.name file)) (moved w' p)
          end
      | None => emit (Downloaded (Viewer.name file)) (moved w p)
      end
  | Rejected _ => emit (Opened (Viewer.url file) (Viewer.name file)) (moved w p)
  end.

(** The [for] loop of [downloadAllFiles]: without a directory it waits
    500 ms after every file but the last. *)
Fixpoint download_each (filesToDownload : list Viewer.FileData)
    (directoryHandle : option Handle) (p : Page) : Page :=
  match filesToDownload with
  | [] => p
  | file :: rest =>
      let p1 := downloadFile file directoryHandle p in
      download_each rest directoryHandle
        match directoryHandle, rest with
        | None, _ :: _ => emit (Delay 500) p1
        | _, _ => p1
        end
  end.

(** The directory the user picks, when the browser can ask and the
    user does not cancel. *)
Definition pickDirectory (p : Page) : option Handle * Page :=
  match showDirectoryPicker with
  | Some pick =>
      let (r, w) := pick (world p) in
      (match r with
       | Resolved h => Some h
       | Rejected _ => None
       end, moved w p)
  | None => (None, p)
  end.

(** Nothing inside the outer [try] throws, so its [catch] is not
    modelled; the [finally] runs last. *)
Definition downloadAllFiles (filesToDownload : list Viewer.FileData) (p : Page) : Page :=
  match filesToDownload with
  | [] => p
  | _ =>
      let (directoryHandle, p1) := pickDirectory (setIsDownloadingAll true p) in
      let p2 := download_each filesToDownload directoryHandle p1 in
      setIsDownloadingAll false
        match directoryHandle with
        | Some _ => emit (AlertDone (length filesToDownload)) p2
        | None => p2
        end
  end.

(** The effects of [p'] that [p] did not have yet. *)
Definition since (p p' : Page) : list Effect :=
  skipn (length (effects p)) (effects p').

(** The names delivered, one way or another, and the waits. *)
Fixpoint delivered (es : list Effect) : list string :=
  match es with
  | [] => []
  | Saved n :: rest | Downloaded n :: rest | Opened _ n :: rest => n :: delivered rest
  | _ :: rest => delivered rest
  end.

Fixpoint delays (es : list Effect) : list nat :=
  match es with
  | [] => []
  | Delay ms :: rest => ms :: delays rest
  | _ :: rest => delays rest
  end.

Fixpoint alerts (es : list Effect) : list nat :=
  match es with
  | [] => []
  | AlertDone n :: rest => n :: alerts rest
  | _ :: rest => alerts rest
  end.

Fixpoint saves (es : list Effect) : list string :=
  match es with
  | [] => []
  | Saved n :: rest => n :: saves rest
  | _ :: rest => saves rest
  end.

End Downloading.

Arguments Page World : clear implicits.

End Downloads.

(* ================================================================== *)
(** * The viewer on top of the facade *)

Module EndToEnd.
Import Js.

(** A record of the facade's listing as the viewer reads it back from
    the JSON body: the properties it never reads are dropped, the ones
    the facade does not send are undefined. *)
Definition asFileData (r : Facade.FileRecord) : Viewer.FileData :=
  {| Viewer.key := Facade.FileRecord.key r;
     Viewer.name := Facade.FileRecord.name r;
     Viewer.fileName := None;
     Viewer.url := Facade.FileRecord.url r;
     Viewer.size := Some (Facade.FileRecord.size r);
     Viewer.fileSize := None;
     Viewer.type := Some (Facade.FileRecord.type r);
     Viewer.fileType := None |}.

(** [response.ok] *)
Definition ok (r : Facade.Response) : bool :=
  (200 <=? Facade.status r)%nat && (Facade.status r <=? 299)%nat.

(** The [error] property of a body. *)
Definition error_of (b : Facade.Body) : option string :=
  match b with
  | Facade.ListingError e _ | Facade.Failure e | Facade.FailureDetails e _ => Some e
  | _ => None
  end.

(** What [loadFiles] finds in a response of [GET]. *)
Definition listReply (r : Facade.Response) : Viewer.ListReply :=
  if ok r
  then Viewer.Body (Facade.success (Facade.body r))
         (map asFileData match Facade.files (Facade.body r) with
                         | Some fs => fs
                         | None => []
                         end)
         (error_of (Facade.body r))
  else Viewer.NotOk (NilZero.string_of_uint (Nat.to_uint (Facade.status r))).

Section Wired.
Context {World : Type} {utapi : UT.UTApi World}.

(** The facade's clock; the query parameters [new URL(request.url)]
    finds in [/api/uploadthing?key=${fileKey}]; and the provider's public
    object URLs, which the viewer fetches directly. *)
Variable now : nat -> string.
Variable query : string -> list (string * string).
Variable fetch_object : string -> World -> Outcome string * World.

(** The network of the viewer when the facade answers it: same origin,
    so a request never fails on the way. *)
Definition viaFacade : Viewer.Backend (Facade.Env World) := {|
  Viewer.fetch_list env :=
    match Facade.GET now env with
    | (Resolved r, env') => (Resolved (listReply r), env')
    | (Rejected e, env') => (Rejected e, env')
    end;
  Viewer.fetch_delete fileKey env :=
    match Facade.DELETE {| Facade.searchParams := query fileKey;
                           Facade.request_json :=
                             Rejected (Error "Unexpected end of JSON input") |} env with
    | (Resolved r, env') => (Resolved (Facade.success (Facade.body r)), env')
    | (Rejected e, env') => (Rejected e, env')
    end;
  Viewer.fetch_text url env :=
    let (r, w) := fetch_object url (Facade.world env) in
    (r, {| Facade.world := w; Facade.calls := Facade.calls env |})
|}.

(** A name whose extension is in one of the four sets. *)
Definition has_known_extension (toLowerCase : string -> string) (name : string) : bool :=
  match Viewer.pop (Viewer.split "." name) with
  | Some e =>
      Viewer.includes
        (Viewer.image_extensions ++ Viewer.video_extensions
         ++ Viewer.audio_extensions ++ Viewer.text_extensions)
        (toLowerCase e)
  | None => false
  end.

End Wired.

End EndToEnd.

(* ================================================================== *)
(** * More concrete pieces *)

Module Samples.
Import Js.

(** A parser that knows one text, the one [Demo.network] serves, and
    reads the roster of Ali and Veli in it. *)
Definition parse (txt : string) : option Participants.Parsed :=
  if (txt =? "merhaba")%string
  then Some (Participants.JsonValue (Some ["Ali"; "Veli"]))
  else None.

(** A page whose listing holds a photo and a participants file. *)
Definition withRoster : Participants.Page Demo.Network :=
  {| Participants.state := Participants.initialState;
     Participants.network :=
       Demo.serving [ Demo.record "a" "photo.jpg" None;
                      Demo.record "p" "Katilimcilar.JSON" None ] [] |}.

(** The query of [/api/uploadthing?key=${fileKey}] for a key made of
    letters and digits. *)
Definition plainQuery (fileKey : string) : list (string * string) :=
  [("key", fileKey)].

(** Object URLs that all answer with an empty body. *)
Definition emptyObjects {World : Type} (_ : string) (w : World) : Outcome string * World :=
  (Resolved "", w).

(** A provider listing two files. *)
Definition twoFiles : Demo.Provider :=
  {| Demo.listing :=
       Resolved (UT.JsObject [("files", UT.JsArray [ Demo.uploaded "a" "photo.JPG";
                                                     Demo.uploaded "x" "setup.exe" ])]);
     Demo.deleting := Resolved true |}.

End Samples.

(* ================================================================== *)
(** * The classification as the specification words it *)

Module Rules.
Import Viewer.

(** One (predicate, type) pair: a record matches when its MIME type is
    present and starts with the prefix, or else when its extension is in
    the set. *)
Record Rule : Type := {
  mimePrefix : string;
  extensions : list string;
  result : FileType
}.

(** The pairs in their fixed order. *)
Definition ordered : list Rule :=
  [ {| mimePrefix := "image/";
       extensions := ["jpg"; "jpeg"; "png"; "gif"; "webp"; "svg"; "bmp"];
       result := image |};
    {| mimePrefix := "video/";
       extensions := ["mp4"; "avi"; "mov"; "wmv"; "flv"; "webm"; "mkv"];
       result := video |};
    {| mimePrefix := "audio/";
       extensions := ["mp3"; "wav"; "ogg"; "flac"; "aac"; "m4a"];
       result := audio |};
    {| mimePrefix := "text/";
       extensions := ["txt"; "md"; "rtf"; "log"];
       result := text |} ].

Definition matches (mime : option string) (ext : string) (r : Rule) : bool :=
  match mime with
  | Some m => if String.prefix (mimePrefix r) m then true
              else existsb (String.eqb ext) (extensions r)
  | None => existsb (String.eqb ext) (extensions r)
  end.

(** First match wins; no match is unknown. *)
Definition classify (mime : option string) (ext : string) : option FileType :=
  option_map result (List.find (matches mime ext) ordered).

(** [ext] is what follows the last dot of [name], or the whole of
    [name] when it has no dot. *)
Definition last_segment (name ext : string) : Prop :=
  ~ In "."%char (list_ascii_of_string ext)
  /\ (name = ext \/ exists stem, name = (stem ++ String "." ext)%string).

(** The number of records of a list that carry the type [t]. *)
Definition records_of_type (t : FileType) (files : list FileData) : nat :=
  length (List.filter (fun f => match fileType f, t with
                                | Some image, image | Some video, video
                                | Some audio, audio | Some text, text => true
                                | _, _ => false
                                end) files).

(** The name and the size the specification's record shows for a record
    of the listing: its own name, else its [fileName], else the
    placeholder; its own size, else its [fileSize], else zero. *)
Definition shown_name (own : string) (other : option string) : string :=
  match own, other with
  | String c n, _ => String c n
  | EmptyString, Some (String c n) => String c n
  | EmptyString, _ => "İsimsiz dosya"
  end.

Definition shown_size (own other : option nat) : nat :=
  match own, other with
  | Some (S n), _ => S n
  | _, Some (S n) => S n
  | _, _ => 0
  end.

End Rules.

(* ================================================================== *)
(** * The facade: what the handlers answer *)

Module FacadeProofs.
Import Js Facade.

(** Unfolds a handler down to the provider call it makes. *)
Ltac handler :=
  cbv beta zeta delta [GET DELETE PATCH try_catch bind ret throw files_map
                       utapi_listFiles utapi_deleteFiles json json_status].

Section WithProvider.
Context {World : Type} {utapi : UT.UTApi World}.
Variable now : nat -> string.

Lemma nonempty_true (s : string) : s <> "" -> nonempty s = true.
Proof.
  unfold nonempty. intros H.
  destruct (String.eqb_spec s "") as [E | _]; [contradiction | reflexivity].
Qed.

(** No handler throws: whatever the provider and the request, each of
    the three answers with a response. *)
Lemma handlers_never_throw (env : Env World) (request : NextRequest) :
  (exists r env', GET now env = (Resolved r, env'))
  /\ (exists r env', DELETE request env = (Resolved r, env'))
  /\ (exists r env', PATCH request env = (Resolved r, env')).
Proof.
  repeat split; handler.
  - destruct (UT.listFiles (world env)) as [[response | e] w]; [| eauto].
    destruct (UT.truthy response); [| eauto].
    destruct (UT.truthy (UT.prop response "files")); cbn [negb]; [| eauto].
    destruct (UT.prop response "files"); eauto.
  - destruct (get (searchParams request) "key") as [k |]; [| eauto].
    destruct (nonempty k); [| eauto].
    destruct (UT.deleteFiles [k] (world env)) as [[deleteResponse | e] w]; [| eauto].
    destruct (UT.success deleteResponse); eauto.
  - destruct (request_json request) as [b | e]; [| eauto].
    destruct (get (searchParams request) "key") as [k |]; [| eauto].
    destruct (nonempty k); eauto.
Qed.

(** C3, as amended.  When the provider's answer is falsy (undefined,
    null, ...) or its [files] property is (missing, null, ...), [GET]
    answers 200 with [success = true], [files = []] and [total = 0];
    it has called [listFiles] once. *)
Theorem GET_without_files (env : Env World) (response : UT.JsValue) (w : World) :
  UT.listFiles (world env) = (Resolved response, w) ->
  UT.truthy response = false \/ UT.truthy (UT.prop response "files") = false ->
  GET now env =
    (Resolved {| body := Listing true [] 0; status := 200 |},
     {| world := w; calls := calls env ++ [UT.ListFiles] |}).
Proof.
  intros Hcall Hguard. handler. rewrite Hcall.
  destruct (UT.truthy response) eqn:Hr.
  - destruct Hguard as [Hguard | Hguard]; [discriminate |].
    rewrite Hguard. reflexivity.
  - reflexivity.
Qed.

(** A [files] property that is truthy but not a list is an unexpected
    provider error: the [catch] clause answers 500. *)
Lemma GET_files_not_a_list (env : Env World) (response : UT.JsValue) (w : World) :
  UT.listFiles (world env) = (Resolved response, w) ->
  UT.truthy response = true ->
  UT.truthy (UT.prop response "files") = true ->
  (forall items, UT.prop response "files" <> UT.JsArray items) ->
  GET now env =
    (Resolved {| body := ListingError "Dosyalar yüklenirken hata oluştu"
                           "response.files.map is not a function";
                 status := 500 |},
     {| world := w; calls := calls env ++ [UT.ListFiles] |}).
Proof.
  intros Hcall Hr Hf Hnot. handler. rewrite Hcall, Hr, Hf.
  destruct (UT.prop response "files") eqn:E; try reflexivity.
  exfalso. exact (Hnot items eq_refl).
Qed.

(** C4.  A [DELETE] whose [key] parameter is absent or empty is
    answered 400 with [success = false], and the provider is left
    alone: no call is made and its state is the same. *)
Theorem DELETE_without_key (env : Env World) (request : NextRequest) :
  get (searchParams request) "key" = None \/
  get (searchParams request) "key" = Some "" ->
  DELETE request env =
    (Resolved {| body := Failure "Dosya anahtarı (key) gerekli"; status := 400 |}, env)
  /\ success (Failure "Dosya anahtarı (key) gerekli") = false
  /\ calls (snd (DELETE request env)) = calls env
  /\ world (snd (DELETE request env)) = world env.
Proof.
  intros Hkey.
  assert (E : DELETE request env =
              (Resolved {| body := Failure "Dosya anahtarı (key) gerekli";
                           status := 400 |}, env)).
  { handler. destruct Hkey as [-> | ->]; reflexivity. }
  rewrite E. repeat split.
Qed.

(** C5.  A [DELETE] with a non-empty key calls the provider's
    [deleteFiles] once, with that key alone.  When the provider
    reports success the answer is 200 with the deleted key; when it
    reports failure the answer is 400 with [success = false]; when the
    call rejects the [catch] clause answers 500. *)
Theorem DELETE_with_key (env : Env World) (request : NextRequest) (k : string) :
  get (searchParams request) "key" = Some k ->
  k <> "" ->
  match UT.deleteFiles [k] (world env) with
  | (Resolved deleteResponse, w) =>
      DELETE request env =
        (Resolved (if UT.success deleteResponse
                   then {| body := Deleted "Dosya başarıyla silindi" k;
                           status := 200 |}
                   else {| body := Failure "Dosya silinemedi"; status := 400 |}),
         {| world := w; calls := calls env ++ [UT.DeleteFiles [k]] |})
  | (Rejected e, w) =>
      DELETE request env =
        (Resolved {| body := FailureDetails "Dosya silinirken hata oluştu"
                               (errorMessage e);
                     status := 500 |},
         {| world := w; calls := calls env ++ [UT.DeleteFiles [k]] |})
  end.
Proof.
  intros Hkey Hne. handler. rewrite Hkey, (nonempty_true k Hne).
  destruct (UT.deleteFiles [k] (world env)) as [[deleteResponse | e] w].
  - destruct (UT.success deleteResponse); reflexivity.
  - reflexivity.
Qed.

Lemma map_from_length (items : list UT.UploadedFile) (i : nat) :
  length (map_from now i items) = length items.
Proof.
  revert i. induction items as [| file rest IH]; intros i; cbn; [| rewrite IH];
    reflexivity.
Qed.

Lemma map_from_keys (items : list UT.UploadedFile) (i : nat) :
  map FileRecord.key (map_from now i items) = map UT.key items.
Proof.
  revert i. induction items as [| file rest IH]; intros i; cbn; [| rewrite IH];
    reflexivity.
Qed.

Lemma map_from_nth (items : list UT.UploadedFile) (i j : nat) :
  nth_error (map_from now i items) j =
  option_map (format now (i + j)) (nth_error items j).
Proof.
  revert i j. induction items as [| file rest IH]; intros i j.
  - destruct j; reflexivity.
  - destruct j as [| j]; cbn.
    + rewrite Nat.add_0_r. reflexivity.
    + rewrite IH. replace (S i + j) with (i + S j) by lia. reflexivity.
Qed.

Lemma map_from_placeholders (items : list UT.UploadedFile) (i : nat) :
  Forall placeholders (map_from now i items).
Proof.
  revert i. induction items as [| file rest IH]; intros i; cbn; constructor.
  - repeat split.
  - apply IH.
Qed.

(** C8.  When the provider answers with a list of files, [GET] answers
    200 with one record per file, in order: its key is the file's, its
    URL is [https://utfs.io/f/<key>], its upload time is the clock's
    reading when the record is made, its type is "unknown" and its size
    is 0. *)
Theorem GET_listing (env : Env World) (response : UT.JsValue)
    (items : list UT.UploadedFile) (w : World) :
  UT.listFiles (world env) = (Resolved response, w) ->
  UT.truthy response = true ->
  UT.prop response "files" = UT.JsArray items ->
  exists formattedFiles,
    GET now env =
      (Resolved {| body := Listing true formattedFiles (length items);
                   status := 200 |},
       {| world := w; calls := calls env ++ [UT.ListFiles] |})
    /\ map FileRecord.key formattedFiles = map UT.key items
    /\ Forall placeholders formattedFiles
    /\ forall i, option_map FileRecord.uploadedAt (nth_error formattedFiles i)
                 = option_map (fun _ => now i) (nth_error items i).
Proof.
  intros Hcall Hr Hfiles. exists (map_from now 0 items). repeat split.
  - handler. rewrite Hcall, Hr, Hfiles. cbn [UT.truthy negb].
    rewrite map_from_length. reflexivity.
  - apply map_from_keys.
  - apply map_from_placeholders.
  - intros i. rewrite map_from_nth. destruct (nth_error items i); reflexivity.
Qed.

Lemma get_absent (params : list (string * string)) (name : string) :
  ~ In name (map fst params) -> get params name = None.
Proof.
  induction params as [| [n v] rest IH]; [reflexivity |].
  cbn [map fst In get]. intros H.
  destruct (String.eqb_spec n name); [tauto | apply IH; tauto].
Qed.

Lemma get_first (before after : list (string * string)) (name v : string) :
  ~ In name (map fst before) -> get (before ++ (name, v) :: after) name = Some v.
Proof.
  induction before as [| [n u] rest IH].
  - intros _. cbn [app get]. rewrite String.eqb_refl. reflexivity.
  - cbn [map fst In app get]. intros H.
    destruct (String.eqb_spec n name); [tauto | apply IH; tauto].
Qed.

(** C9, as amended.  [PATCH] never touches the provider: the
    environment after it (the provider's state and the calls made) is the
    one before it, whatever the request.  It reads the body first: a body
    that does not parse is answered 500 with the error's text, whatever
    the key; else a request without a [key] parameter, or whose first
    [key] parameter is empty, is answered 400; else the answer is 200,
    echoing that key and the body. *)
Theorem PATCH_is_a_stub (env : Env World) (request : NextRequest) :
  match request_json request with
  | Rejected e =>
      PATCH request env =
        (Resolved {| body := FailureDetails "Dosya güncellenirken hata oluştu"
                               match e with
                               | Error message => message
                               | NonError => "Bilinmeyen hata"
                               end;
                     status := 500 |}, env)
  | Resolved patch =>
      (~ In "key" (map fst (searchParams request)) ->
       PATCH request env =
         (Resolved {| body := Failure "Dosya anahtarı (key) gerekli";
                      status := 400 |}, env))
      /\ (forall before k after,
            searchParams request = before ++ ("key", k) :: after ->
            ~ In "key" (map fst before) ->
            PATCH request env =
              (Resolved match k with
                        | EmptyString =>
                            {| body := Failure "Dosya anahtarı (key) gerekli";
                               status := 400 |}
                        | String _ _ =>
                            {| body := Updated "Dosya bilgileri güncellendi" k patch;
                               status := 200 |}
                        end, env))
  end.
Proof.
  handler. destruct (request_json request) as [patch | e].
  - split.
    + intros H. rewrite (get_absent _ _ H). reflexivity.
    + intros before k after -> H. rewrite (get_first _ _ _ _ H).
      destruct k; reflexivity.
  - destruct e; reflexivity.
Qed.

End WithProvider.

End FacadeProofs.

(* ================================================================== *)
(** * The viewer: classification, views and counts *)

Module ViewerProofs.
Import Js Viewer.

Section Classified.
Variable toLowerCase : string -> string.

(** The full callback of [loadFiles] keeps the type as well, as long
    as the record has a name of its own. *)
Lemma getFileType_classified (file : FileData) :
  name file <> "" ->
  getFileType toLowerCase (classified toLowerCase file) = getFileType toLowerCase file.
Proof.
  intros Hname. unfold getFileType, extension, mimeType, classified; cbn.
  unfold nonempty. destruct (String.eqb_spec (name file) ""); [contradiction |].
  reflexivity.
Qed.

(** The order of the types comes before the kind of evidence: a file
    named like an image is an image even when its MIME type says video,
    and a name without a dot is its own extension. *)
Lemma image_extension_before_video_mime :
  getFileType ascii_toLowerCase (Demo.record "a" "clip.JPG" (Some "video/mp4")) = Some image
  /\ getFileType ascii_toLowerCase (Demo.record "a" "clip.bin" (Some "Video/MP4")) = Some video
  /\ getFileType ascii_toLowerCase (Demo.record "a" "mp3" None) = Some audio
  /\ getFileType ascii_toLowerCase (Demo.record "a" "notes." (Some "unknown")) = None.
Proof. repeat split. Qed.

Lemma supportedFiles_known (data_files : list FileData) :
  supportedFiles toLowerCase data_files =
  map (classified toLowerCase) (List.filter (known toLowerCase) data_files).
Proof.
  unfold supportedFiles. induction data_files as [| file rest IH]; [reflexivity |].
  cbn [map List.filter]. unfold supported at 1, known at 1. cbn [classified fileType].
  destruct (getFileType toLowerCase file); cbn [map]; rewrite IH; reflexivity.
Qed.

Lemma supportedFiles_supported (data_files : list FileData) :
  forallb supported (supportedFiles toLowerCase data_files) = true.
Proof.
  unfold supportedFiles. apply forallb_forall. intros f Hf.
  apply filter_In in Hf. tauto.
Qed.

End Classified.

Lemma filteredFiles_supported (flt : Filter) (files : list FileData) :
  forallb supported files = true ->
  forallb supported (filteredFiles flt files) = true.
Proof.
  intros H. rewrite forallb_forall in H. apply forallb_forall. intros f Hf.
  apply H. destruct flt; cbn in Hf; [| | contradiction];
    apply filter_In in Hf; tauto.
Qed.

(** Each supported record falls under exactly one of the four types. *)
Lemma counts_partition (files : list FileData) :
  forallb supported files = true ->
  length files =
    length (List.filter (fileType_is (only image)) files)
    + length (List.filter (fileType_is (only video)) files)
    + length (List.filter (fileType_is (only audio)) files)
    + length (List.filter (fileType_is (only text)) files).
Proof.
  induction files as [| f rest IH]; [reflexivity |].
  cbn [forallb]. intros H. apply andb_true_iff in H. destruct H as [Hf Hrest].
  specialize (IH Hrest). cbn [List.filter length]. rewrite IH.
  remember (List.filter (fileType_is (only image)) rest) as images.
  remember (List.filter (fileType_is (only video)) rest) as videos.
  remember (List.filter (fileType_is (only audio)) rest) as audios.
  remember (List.filter (fileType_is (only text)) rest) as texts.
  unfold supported in Hf. unfold fileType_is.
  destruct (fileType f) as [[] |]; [| | | | discriminate];
    cbn [FileType_eqb length]; lia.
Qed.

Lemma records_of_type_filter (t : FileType) (files : list FileData) :
  Rules.records_of_type t files = length (List.filter (fileType_is (only t)) files).
Proof.
  unfold Rules.records_of_type. destruct t; reflexivity.
Qed.

Lemma supported_typed (files : list FileData) :
  forallb supported files = true -> Forall (fun f => fileType f <> None) files.
Proof.
  intros H. rewrite forallb_forall in H. apply Forall_forall. intros f Hf.
  specialize (H f Hf). unfold supported in H.
  destruct (fileType f); [discriminate | discriminate H].
Qed.

Lemma counts_supported (files : list FileData) :
  forallb supported files = true ->
  fileCounts.all (fileCounts files) = length files
  /\ fileCounts.image (fileCounts files) = Rules.records_of_type image files
  /\ fileCounts.video (fileCounts files) = Rules.records_of_type video files
  /\ fileCounts.audio (fileCounts files) = Rules.records_of_type audio files
  /\ fileCounts.text (fileCounts files) = Rules.records_of_type text files
  /\ length files =
       Rules.records_of_type image files + Rules.records_of_type video files
       + Rules.records_of_type audio files + Rules.records_of_type text files.
Proof.
  intros H. pose proof (counts_partition files H) as Hsum.
  rewrite !records_of_type_filter. cbn [fileCounts
    fileCounts.all fileCounts.image fileCounts.video fileCounts.audio fileCounts.text].
  repeat split; assumption.
Qed.

(** ** Lists *)

Lemma filter_twice {A} (p q : A -> bool) (l : list A) :
  List.filter q (List.filter p l) = List.filter (fun x => p x && q x) l.
Proof.
  induction l as [| x l IH]; [reflexivity |].
  cbn [List.filter]. destruct (p x); cbn [List.filter andb]; [| exact IH].
  destruct (q x); rewrite IH; reflexivity.
Qed.

Lemma forallb_kept {A} (p q : A -> bool) (l : list A) :
  forallb p l = true -> forallb p (List.filter q l) = true.
Proof.
  intros H. rewrite forallb_forall in H. apply forallb_forall. intros x Hx.
  apply filter_In in Hx. apply H, Hx.
Qed.

Lemma skipn_past {A} (l new : list A) : skipn (length l) (l ++ new) = new.
Proof. induction l as [| x l IH]; [reflexivity | exact IH]. Qed.

Lemma partition_length {A} (p : A -> bool) (l : list A) :
  length (List.filter p l) + length (List.filter (fun x => negb (p x)) l) = length l.
Proof.
  induction l as [| x l IH]; [reflexivity |].
  cbn [List.filter]. destruct (p x); cbn [negb length]; lia.
Qed.

Section Component.
Context {World : Type} {backend : Backend World}.

Lemma requests_loop (fs : list FileData) (outs : list bool) (tail : list Effect) :
  requests (loop_effects fs outs ++ tail) =
  combine (map key fs) outs ++ requests tail.
Proof.
  unfold loop_effects.
  revert outs. induction fs as [| f fs IH]; intros [| o outs]; try reflexivity.
  cbn. rewrite IH. reflexivity.
Qed.

Lemma deleteFile_page (k : string) (p : Page World) :
  snd (deleteFile k p) =
  {| state := state p; network := snd (fetch_delete k (network p));
     effects := effects p ++ [DeleteRequest k (fst (deleteFile k p))] |}.
Proof.
  unfold deleteFile. destruct (fetch_delete k (network p)) as [[ok | e] w]; reflexivity.
Qed.

Lemma delete_each_cons (x : FileData) (rest : list FileData) (c : nat)
    (p : Page World) :
  delete_each (x :: rest) c p =
  delete_each rest
    (if fst (deleteFile (key x) p) then S c else c)
    {| state := if fst (deleteFile (key x) p)
                then setFiles (List.filter (other_key x))
                       (state (snd (deleteFile (key x) p)))
                else state (snd (deleteFile (key x) p));
       network := network (snd (deleteFile (key x) p));
       effects := effects (snd (deleteFile (key x) p)) ++ [Delay 100] |}.
Proof.
  cbn [delete_each]. unfold bind, update, ret, emit.
  destruct (deleteFile (key x) p) as [[] p1]; reflexivity.
Qed.

(** The loop asks for every file in turn, whatever the answers; it
    counts the successes and drops them from the list. *)
Lemma delete_each_spec (fs : list FileData) :
  forall (c : nat) (p : Page World),
  exists outs : list bool,
    length outs = length fs
    /\ effects (snd (delete_each fs c p)) = effects p ++ loop_effects fs outs
    /\ fst (delete_each fs c p) = c + length (deleted (combine (map key fs) outs))
    /\ state (snd (delete_each fs c p)) =
         setFiles
           (List.filter (fun f => negb (includes
                                          (deleted (combine (map key fs) outs))
                                          (key f))))
           (state p).
Proof.
  induction fs as [| x rest IH]; intros c p.
  - exists []. unfold loop_effects. cbn. rewrite app_nil_r, Nat.add_0_r.
    repeat split.
    unfold setFiles. destruct (state p) as [fl ? ? ? ? ? ? ? ? ? ?]; cbn.
    f_equal. induction fl as [| y fl IHfl]; [reflexivity |].
    cbn. rewrite <- IHfl. reflexivity.
  - rewrite delete_each_cons, deleteFile_page. cbn [state network effects].
    destruct (fst (deleteFile (key x) p)).
    + match goal with
      | |- context [delete_each rest ?c' ?p'] =>
          destruct (IH c' p') as (outs & Hlen & Heff & Hcount & Hstate)
      end.
      exists (true :: outs). cbn [state network effects] in *.
      repeat split.
      * cbn. rewrite Hlen. reflexivity.
      * rewrite Heff. unfold loop_effects. cbn. rewrite <- !app_assoc. reflexivity.
      * rewrite Hcount. unfold deleted. cbn. lia.
      * rewrite Hstate. unfold setFiles; cbn. f_equal.
        rewrite filter_twice. apply filter_ext. intros f.
        unfold other_key, includes; cbn. rewrite negb_orb. reflexivity.
    + match goal with
      | |- context [delete_each rest ?c' ?p'] =>
          destruct (IH c' p') as (outs & Hlen & Heff & Hcount & Hstate)
      end.
      exists (false :: outs). cbn [state network effects] in *.
      repeat split.
      * cbn. rewrite Hlen. reflexivity.
      * rewrite Heff. unfold loop_effects. cbn. rewrite <- !app_assoc. reflexivity.
      * rewrite Hcount. reflexivity.
      * rewrite Hstate. reflexivity.
Qed.

(** What a bulk delete over a non-empty list leaves behind. *)
Lemma handleDeleteAllFiles_spec (fs : list FileData) (p : Page World) :
  fs <> [] ->
  exists outs : list bool,
    length outs = length fs
    /\ effects (snd (handleDeleteAllFiles fs p)) =
         effects p ++ loop_effects fs outs ++ [SetTimeout HideDeleteSuccess 4000]
    /\ files (state (snd (handleDeleteAllFiles fs p))) =
         List.filter (fun f => negb (includes
                                       (deleted (combine (map key fs) outs))
                                       (key f)))
                     (files (state p))
    /\ deletedCountInfo (state (snd (handleDeleteAllFiles fs p))) =
         length (deleted (combine (map key fs) outs))
    /\ showDeleteSuccess (state (snd (handleDeleteAllFiles fs p))) = true
    /\ filter (state (snd (handleDeleteAllFiles fs p))) = filter (state p).
Proof.
  intros Hne. destruct fs as [| x rest]; [contradiction |].
  remember (x :: rest) as fs eqn:Hfs.
  assert (E : handleDeleteAllFiles fs p =
              let r := delete_each fs 0
                         {| state := setIsDeletingAll true (state p);
                            network := network p; effects := effects p |} in
              (tt, {| state := setIsDeletingAll false
                                 (setShowDeleteAllConfirm false
                                    (setShowDeleteSuccess true
                                       (setDeletedCountInfo (fst r) (state (snd r)))));
                      network := network (snd r);
                      effects := effects (snd r) ++ [SetTimeout HideDeleteSuccess 4000] |})).
  { subst fs. unfold handleDeleteAllFiles, bind, update, emit, ret. cbv beta iota zeta.
    cbn [state network effects].
    destruct (delete_each (x :: rest) 0 _) as [c p1]. reflexivity. }
  rewrite E. cbv zeta. cbn [snd state network effects].
  match goal with
  | |- context [delete_each fs 0 ?q] =>
      destruct (delete_each_spec fs 0 q) as (outs & Hlen & Heff & Hcount & Hstate)
  end.
  exists outs. rewrite Heff, Hcount, Hstate. cbn.
  rewrite <- app_assoc. repeat split; assumption.
Qed.

(** ** Keys *)

Lemma includes_cons (k k0 : string) (l : list string) :
  includes (k0 :: l) k = (k =? k0)%string || includes l k.
Proof. reflexivity. Qed.

Lemma includes_In (l : list string) (k : string) :
  includes l k = true <-> In k l.
Proof.
  unfold includes. rewrite existsb_exists. split.
  - intros (y & Hy & E). apply String.eqb_eq in E. subst. exact Hy.
  - intros H. exists k. split; [exact H | apply String.eqb_refl].
Qed.

Lemma includes_not_In (l : list string) (k : string) :
  ~ In k l -> includes l k = false.
Proof.
  intros H. destruct (includes l k) eqn:E; [| reflexivity].
  apply includes_In in E. contradiction.
Qed.

Lemma deleted_keys (rs : list (string * bool)) (k : string) :
  In k (deleted rs) -> In k (map fst rs).
Proof.
  unfold deleted. intros H. apply in_map_iff in H. destruct H as (r & <- & Hr).
  apply filter_In in Hr. apply in_map, Hr.
Qed.

Lemma rejected_keys (rs : list (string * bool)) (k : string) :
  In k (rejected rs) -> In k (map fst rs).
Proof.
  unfold rejected. intros H. apply in_map_iff in H. destruct H as (r & <- & Hr).
  apply filter_In in Hr. apply in_map, Hr.
Qed.

Lemma combine_keys (ks : list string) (outs : list bool) :
  length outs = length ks -> map fst (combine ks outs) = ks.
Proof.
  revert outs. induction ks as [| k ks IH]; intros [| o outs] H;
    try discriminate; [reflexivity |].
  cbn. rewrite IH; [reflexivity | now injection H].
Qed.

(** With unique keys, a requested key is either deleted or rejected. *)
Lemma kept_iff_rejected (rs : list (string * bool)) (k : string) :
  NoDup (map fst rs) -> In k (map fst rs) ->
  negb (includes (deleted rs) k) = includes (rejected rs) k.
Proof.
  induction rs as [| [k0 o] rs IH]; intros Hnd Hin; [contradiction |].
  cbn [map fst] in Hnd, Hin. inversion Hnd as [| ? ? Hfresh Hnd']; subst.
  destruct (String.eqb_spec k k0) as [-> | Hk].
  - assert (includes (deleted rs) k0 = false) as Hd
      by (apply includes_not_In; intros H; apply Hfresh, deleted_keys, H).
    assert (includes (rejected rs) k0 = false) as Hr
      by (apply includes_not_In; intros H; apply Hfresh, rejected_keys, H).
    unfold deleted, rejected in *. destruct o; cbn [List.filter snd negb map fst].
    + rewrite includes_cons, String.eqb_refl, Hr. reflexivity.
    + rewrite includes_cons, String.eqb_refl, Hd. reflexivity.
  - destruct Hin as [E | Hin]; [congruence |]. specialize (IH Hnd' Hin).
    apply String.eqb_neq in Hk.
    unfold deleted, rejected in *. destruct o; cbn [List.filter snd negb map fst].
    + rewrite includes_cons, Hk. exact IH.
    + rewrite includes_cons, Hk. exact IH.
Qed.

Lemma NoDup_keys_filter (q : FileData -> bool) (l : list FileData) :
  NoDup (map key l) -> NoDup (map key (List.filter q l)).
Proof.
  induction l as [| x l IH]; intros H; [constructor |].
  cbn [map] in H. inversion H as [| ? ? Hfresh Hnd]; subst.
  cbn [List.filter]. destruct (q x); [| apply IH, Hnd].
  cbn [map]. constructor; [| apply IH, Hnd].
  intros Hin. apply Hfresh. apply in_map_iff in Hin. destruct Hin as (y & E & Hy).
  apply filter_In in Hy. rewrite <- E. apply in_map, Hy.
Qed.

(** With unique keys, the files whose key was rejected are as many as
    the rejections. *)
Lemma rejected_files_length (fs : list FileData) :
  forall outs : list bool,
  length outs = length fs ->
  NoDup (map key fs) ->
  length (List.filter (fun f => includes (rejected (combine (map key fs) outs)) (key f)) fs)
  = length (rejected (combine (map key fs) outs)).
Proof.
  induction fs as [| x fs IH]; intros [| o outs] Hlen Hnd; try discriminate;
    [reflexivity |].
  cbn [map] in Hnd. inversion Hnd as [| ? ? Hfresh Hnd']; subst.
  injection Hlen as Hlen. specialize (IH outs Hlen Hnd').
  assert (Hx : includes (rejected (combine (map key fs) outs)) (key x) = false).
  { apply includes_not_In. intros H. apply rejected_keys in H.
    rewrite combine_keys in H by (rewrite length_map; exact Hlen). contradiction. }
  assert (Hrest : forall l,
             List.filter (fun f => includes (key x :: l) (key f)) fs =
             List.filter (fun f => includes l (key f)) fs).
  { intros l. apply filter_ext_in. intros f Hf. rewrite includes_cons.
    destruct (String.eqb_spec (key f) (key x)) as [E | _]; [| reflexivity].
    exfalso. apply Hfresh. rewrite <- E. apply in_map, Hf. }
  cbn [map combine List.filter].
  unfold rejected in *. destruct o; cbn [List.filter snd negb map fst length].
  - rewrite Hx. exact IH.
  - rewrite includes_cons, String.eqb_refl. cbn [orb length].
    rewrite Hrest, IH. reflexivity.
Qed.

Lemma filteredFiles_filter (flt : Filter) (q : FileData -> bool) (l : list FileData) :
  filteredFiles flt (List.filter q l) = List.filter q (filteredFiles flt l).
Proof.
  destruct flt; cbn [filteredFiles]; [| | reflexivity];
    rewrite !filter_twice; apply filter_ext; intros f; apply andb_comm.
Qed.

Lemma NoDup_keys_filteredFiles (flt : Filter) (l : list FileData) :
  NoDup (map key l) -> NoDup (map key (filteredFiles flt l)).
Proof.
  intros H. destruct flt; cbn [filteredFiles]; [| | constructor];
    apply NoDup_keys_filter, H.
Qed.

(** C2, as amended.  A bulk delete over the filtered set, when that
    set is not empty and keys are unique: every file of the set is
    asked for once, in order, whatever the answers; the count shown is
    the size of the set less the failed requests; the list in memory
    loses the records deleted and nothing else, so that of the
    filtered set exactly the failed ones remain, as many as there were
    failures, and the records outside the set all stay. *)
Theorem bulk_delete_filtered (p : Page World) :
  let fs := filteredFiles (filter (state p)) (files (state p)) in
  let p' := snd (handleDeleteAllFiles fs p) in
  let rs := requests (since p p') in
  NoDup (map key (files (state p))) ->
  fs <> [] ->
  map fst rs = map key fs
  /\ deletedCountInfo (state p') = length fs - length (rejected rs)
  /\ showDeleteSuccess (state p') = true
  /\ files (state p') =
       List.filter (fun f => negb (includes (deleted rs) (key f))) (files (state p))
  /\ filteredFiles (filter (state p')) (files (state p')) =
       List.filter (fun f => includes (rejected rs) (key f)) fs
  /\ length (filteredFiles (filter (state p')) (files (state p'))) =
       length (rejected rs)
  /\ List.filter (fun f => negb (includes (map key fs) (key f))) (files (state p')) =
       List.filter (fun f => negb (includes (map key fs) (key f))) (files (state p)).
Proof.
  intros fs p' rs Hnd Hne.
  destruct (handleDeleteAllFiles_spec fs p Hne)
    as (outs & Hlen & Heff & Hfiles & Hcount & Hshow & Hflt).
  fold p' in Heff, Hfiles, Hcount, Hshow, Hflt.
  assert (Hrs : rs = combine (map key fs) outs).
  { unfold rs, since. rewrite Heff, skipn_past, requests_loop. apply app_nil_r. }
  assert (Hkeys : map fst rs = map key fs).
  { rewrite Hrs. apply combine_keys. rewrite length_map. exact Hlen. }
  assert (Hnd_fs : NoDup (map key fs)) by apply NoDup_keys_filteredFiles, Hnd.
  assert (Hview : filteredFiles (filter (state p')) (files (state p')) =
                  List.filter (fun f => includes (rejected rs) (key f)) fs).
  { rewrite Hflt, Hfiles, filteredFiles_filter. fold fs. rewrite <- Hrs.
    apply filter_ext_in. intros f Hf. apply kept_iff_rejected.
    - rewrite Hkeys. exact Hnd_fs.
    - rewrite Hkeys. apply in_map, Hf. }
  repeat split.
  - exact Hkeys.
  - rewrite Hcount, <- Hrs.
    pose proof (partition_length snd rs) as Hpart.
    assert (length rs = length fs) as Hn
      by (rewrite <- (length_map fst rs), Hkeys; apply length_map).
    unfold deleted, rejected. rewrite !length_map. lia.
  - exact Hshow.
  - rewrite Hfiles, Hrs. reflexivity.
  - exact Hview.
  - rewrite Hview, Hrs. apply rejected_files_length; assumption.
  - rewrite Hfiles, filter_twice. apply filter_ext. intros f.
    destruct (includes (map key fs) (key f)) eqn:E; cbn [negb].
    + apply andb_false_r.
    + rewrite andb_true_r. rewrite includes_not_In; [reflexivity |].
      intros H. apply deleted_keys in H.
      rewrite combine_keys in H by (rewrite length_map; exact Hlen).
      apply includes_In in H. congruence.
Qed.


Lemma handleDeleteFile_files (file : FileData) (p : Page World) :
  files (state (snd (handleDeleteFile file p))) =
  if fst (deleteFile (key file) p)
  then List.filter (other_key file) (files (state p))
  else files (state p).
Proof.
  unfold handleDeleteFile, bind.
  pose proof (deleteFile_page (key file) p) as Hp1.
  destruct (deleteFile (key file) p) as [ok p1]. cbn [fst snd] in Hp1. subst p1.
  destruct ok; [| reflexivity].
  unfold update, read, emit, ret. cbv beta iota. cbn [state network effects].
  cbn [selectedFile setFileToDelete setFiles].
  destruct (shows (selectedFile (state p)) file); reflexivity.
Qed.

Variable toLowerCase : string -> string.

Lemma load_text_page (textFiles : list FileData) :
  forall (m : list (string * string)) (p : Page World),
  state (snd (load_text textFiles m p)) = state p
  /\ effects (snd (load_text textFiles m p)) = effects p.
Proof.
  induction textFiles as [| f rest IH]; intros m p; [split; reflexivity |].
  cbn [load_text]. unfold bind, fetchTextContent.
  destruct (fetch_text (url f) (network p)) as [r w].
  match goal with
  | |- context [load_text rest ?m' ?p'] => destruct (IH m' p') as [Hs He]
  end.
  rewrite Hs, He. split; reflexivity.
Qed.

(** The list in memory after [loadFiles]: the supported records of
    the listing when it arrived with [success], the list as it was
    otherwise. *)
Lemma loadFiles_files (p : Page World) :
  files (state (snd (loadFiles toLowerCase p))) =
  match fst (fetch_list (network p)) with
  | Resolved (Body true data_files _) => supportedFiles toLowerCase data_files
  | _ => files (state p)
  end.
Proof.
  unfold loadFiles, bind, fetch_files, update, ret. cbv beta iota.
  cbn [state network effects].
  destruct (fetch_list (network p)) as [[[status | [] data_files data_error] | e] w];
    cbn [fst]; try reflexivity.
  cbv beta iota zeta. cbn [state network effects].
  match goal with
  | |- context [load_text ?tf ?m ?q] =>
      pose proof (load_text_page tf m q) as [Hs He];
      destruct (load_text tf m q) as [tc p2]
  end.
  cbn [snd] in Hs. cbn [snd state]. rewrite Hs. reflexivity.
Qed.

Lemma perform_supported (a : Action) (p : Page World) :
  forallb supported (files (state p)) = true ->
  forallb supported (files (state (snd (perform toLowerCase a p)))) = true.
Proof.
  intros H.
  assert (Hall : forall fs,
             forallb supported (files (state (snd (handleDeleteAllFiles fs p)))) = true).
  { intros [| x rest]; [exact H |].
    destruct (handleDeleteAllFiles_spec (x :: rest) p) as (outs & _ & _ & Hf & _);
      [discriminate |].
    rewrite Hf. apply forallb_kept, H. }
  destruct a; cbn [perform].
  - rewrite loadFiles_files.
    destruct (fst (fetch_list (network p))) as [[status | [] data_files data_error] | e];
      try exact H.
    apply supportedFiles_supported.
  - rewrite handleDeleteFile_files.
    destruct (fst (deleteFile (key file) p)); [apply forallb_kept, H | exact H].
  - apply Hall.
  - unfold bind, read. apply Hall.
  - exact H.
  - exact H.
  - exact H.
  - exact H.
  - destruct cb. exact H.
Qed.

Lemma run_supported (script : list Action) :
  forall p : Page World,
  forallb supported (files (state p)) = true ->
  forallb supported (files (state (run toLowerCase script p))) = true.
Proof.
  induction script as [| a rest IH]; intros p H; [exact H |].
  cbn [run]. apply IH, perform_supported, H.
Qed.

(** C10.  Whatever has happened to the component since it was
    created (loads, single and bulk deletes, filter changes, timers),
    every record in memory has one of the four types; the "all" count is
    the number of records in memory, and the image, video, audio and text
    counts are the numbers of records that carry that type; these four
    numbers add up to the number of records, each record being counted
    under its one type; so the "all" count is the sum of the other
    four. *)
Theorem counts_always_add_up (w : World) (script : list Action) :
  let files := files (state (run toLowerCase script (mount w))) in
  Forall (fun f => exists t, fileType f = Some t) files
  /\ fileCounts.all (fileCounts files) = length files
  /\ fileCounts.image (fileCounts files) = Rules.records_of_type image files
  /\ fileCounts.video (fileCounts files) = Rules.records_of_type video files
  /\ fileCounts.audio (fileCounts files) = Rules.records_of_type audio files
  /\ fileCounts.text (fileCounts files) = Rules.records_of_type text files
  /\ length files =
       Rules.records_of_type image files + Rules.records_of_type video files
       + Rules.records_of_type audio files + Rules.records_of_type text files
  /\ fileCounts.all (fileCounts files) =
       fileCounts.image (fileCounts files) + fileCounts.video (fileCounts files)
       + fileCounts.audio (fileCounts files) + fileCounts.text (fileCounts files).
Proof.
  intros fs.
  assert (H : forallb supported fs = true) by (apply run_supported; reflexivity).
  destruct (counts_supported fs H) as (Hall & Hi & Hv & Ha & Ht & Hsum).
  split.
  { eapply Forall_impl; [| apply supported_typed, H].
    intros f Hf. cbv beta in Hf.
    destruct (fileType f) as [t |]; [eauto | exfalso; apply Hf; reflexivity]. }
  repeat split; assumption.
Qed.

(** What [loadFiles] puts in memory are
    the records of the listing that have a type, classified; the
    others are dropped there, so no view holds one of them, and each
    count is the size of a view. *)
Lemma unknown_dropped_at_load (p : Page World) (flt : Filter) :
  let files' := files (state (snd (loadFiles toLowerCase p))) in
  match fst (fetch_list (network p)) with
  | Resolved (Body true data_files _) =>
      files' = map (classified toLowerCase)
                   (List.filter (known toLowerCase) data_files)
      /\ forallb supported (filteredFiles flt files') = true
  | _ => files' = files (state p)
  end.
Proof.
  cbv zeta. rewrite loadFiles_files.
  destruct (fst (fetch_list (network p))) as [[status | [] data_files data_error] | e];
    try reflexivity.
  split; [apply supportedFiles_known |].
  apply filteredFiles_supported, supportedFiles_supported.
Qed.

End Component.

Lemma filter_all {A} (l : list A) : List.filter (fun _ => true) l = l.
Proof. induction l as [| x l IH]; [reflexivity | cbn; rewrite IH; reflexivity]. Qed.

(** Each count is the size of the view of its filter. *)
Lemma fileCounts_views (l : list FileData) :
  fileCounts l =
  {| fileCounts.all := length (filteredFiles all l);
     fileCounts.image := length (filteredFiles (only image) l);
     fileCounts.video := length (filteredFiles (only video) l);
     fileCounts.audio := length (filteredFiles (only audio) l);
     fileCounts.text := length (filteredFiles (only text) l) |}.
Proof. unfold fileCounts. cbn [filteredFiles]. rewrite filter_all. reflexivity. Qed.

Lemma scenario_loaded (ty : option string) :
  ty = None \/ ty = Some "unknown" -> Demo.scenario_outcome ty.
Proof.
  intros [-> | ->]; (repeat split; [intros [| [] |]; reflexivity]).
Qed.

(** C6.  What [loadFiles] puts in memory are the records of the
    listing that have a type, classified; those classified unknown are
    dropped there, so no view holds one, "all" included, and no count
    counts one, each count being the size of a view.  For the listing
    [a = photo.jpg], [b = song.mp3], [c = clip.exe] (with no [type], or
    with the facade's "unknown") the "all" view holds [a], an image, and
    [b], an audio file, and [c] is in no view. *)
Theorem unknown_excluded_everywhere :
  (forall (toLowerCase : string -> string) (World : Type) (backend : Backend World)
          (p : Page World) (flt : Filter),
      let files' := files (state (snd (loadFiles toLowerCase p))) in
      match fst (fetch_list (network p)) with
      | Resolved (Body true data_files _) =>
          files' = map (classified toLowerCase)
                       (List.filter (known toLowerCase) data_files)
          /\ forallb supported (filteredFiles flt files') = true
      | _ => files' = files (state p)
      end)
  /\ (forall l : list FileData,
        fileCounts l =
        {| fileCounts.all := length (filteredFiles all l);
           fileCounts.image := length (filteredFiles (only image) l);
           fileCounts.video := length (filteredFiles (only video) l);
           fileCounts.audio := length (filteredFiles (only audio) l);
           fileCounts.text := length (filteredFiles (only text) l) |})
  /\ Demo.scenario_outcome None
  /\ Demo.scenario_outcome (Some "unknown").
Proof.
  split; [| split; [| split]].
  - intros. apply unknown_dropped_at_load.
  - apply fileCounts_views.
  - apply scenario_loaded. left. reflexivity.
  - apply scenario_loaded. right. reflexivity.
Qed.

End ViewerProofs.

(* ================================================================== *)
(** * The theorems at concrete providers and pages *)

Module Instances.
Import Js Demo.

(** ** The facade *)

Section OnTheFacade.
Import Facade FacadeProofs.

(** A provider whose answer to the listing has no [files] at all. *)
Lemma GET_without_files_witness :
  let response := UT.JsObject [("hasMore", UT.JsBool false)] in
  let w := {| listing := Resolved response; deleting := Resolved true |} in
  UT.listFiles (world (env w)) = (Resolved response, w)
  /\ (UT.truthy response = false \/ UT.truthy (UT.prop response "files") = false)
  /\ GET noon (env w) =
       (Resolved {| body := Listing true [] 0; status := 200 |},
        {| world := w; calls := [UT.ListFiles] |}).
Proof.
  intros response w.
  assert (Hcall : UT.listFiles (world (env w)) = (Resolved response, w))
    by reflexivity.
  assert (Hguard : UT.truthy response = false \/
                   UT.truthy (UT.prop response "files") = false)
    by (right; reflexivity).
  split; [exact Hcall | split; [exact Hguard |]].
  exact (GET_without_files noon (env w) response w Hcall Hguard).
Defined.

(** A provider whose [files] is a string: the handler answers 500, not
    the empty listing. *)
Lemma GET_malformed_files_counterexample :
  let response := UT.JsObject [("files", UT.JsString "oops")] in
  let w := {| listing := Resolved response; deleting := Resolved true |} in
  fst (GET noon (env w)) =
    Resolved {| body := ListingError "Dosyalar yüklenirken hata oluştu"
                          "response.files.map is not a function";
                status := 500 |}
  /\ fst (GET noon (env w)) <> Resolved {| body := Listing true [] 0; status := 200 |}
  /\ success (ListingError "Dosyalar yüklenirken hata oluştu"
                "response.files.map is not a function") = false.
Proof.
  intros response w. repeat split. cbn. discriminate.
Qed.

Lemma DELETE_without_key_witness :
  let w := {| listing := Resolved UT.JsNull; deleting := Resolved true |} in
  let request := {| searchParams := [("key", "")]; request_json := Rejected NonError |} in
  (get (searchParams request) "key" = None \/
   get (searchParams request) "key" = Some "")
  /\ DELETE request (env w) =
       (Resolved {| body := Failure "Dosya anahtarı (key) gerekli"; status := 400 |},
        env w).
Proof.
  intros w request.
  assert (Hkey : get (searchParams request) "key" = None \/
                 get (searchParams request) "key" = Some "")
    by (right; reflexivity).
  split; [exact Hkey |].
  exact (proj1 (DELETE_without_key (env w) request Hkey)).
Defined.

(** A provider that reports failure, and one that reports success. *)
Lemma DELETE_with_key_witness :
  let refusing := {| listing := Resolved UT.JsNull; deleting := Resolved false |} in
  let accepting := {| listing := Resolved UT.JsNull; deleting := Resolved true |} in
  let request := {| searchParams := [("key", "abc")]; request_json := Rejected NonError |} in
  get (searchParams request) "key" = Some "abc"
  /\ "abc" <> ""
  /\ DELETE request (env refusing) =
       (Resolved {| body := Failure "Dosya silinemedi"; status := 400 |},
        {| world := refusing; calls := [UT.DeleteFiles ["abc"]] |})
  /\ DELETE request (env accepting) =
       (Resolved {| body := Deleted "Dosya başarıyla silindi" "abc"; status := 200 |},
        {| world := accepting; calls := [UT.DeleteFiles ["abc"]] |}).
Proof.
  intros refusing accepting request.
  assert (Hkey : get (searchParams request) "key" = Some "abc") by reflexivity.
  assert (Hne : "abc" <> "") by discriminate.
  split; [exact Hkey | split; [exact Hne | split]].
  - exact (DELETE_with_key (env refusing) request "abc" Hkey Hne).
  - exact (DELETE_with_key (env accepting) request "abc" Hkey Hne).
Defined.

Lemma GET_listing_witness :
  let items := [uploaded "a" "photo.jpg"; uploaded "b" "song.mp3"] in
  let response := UT.JsObject [("files", UT.JsArray items); ("hasMore", UT.JsBool false)] in
  let w := {| listing := Resolved response; deleting := Resolved true |} in
  UT.listFiles (world (env w)) = (Resolved response, w)
  /\ UT.truthy response = true
  /\ UT.prop response "files" = UT.JsArray items
  /\ exists formattedFiles,
       GET noon (env w) =
         (Resolved {| body := Listing true formattedFiles (length items);
                      status := 200 |},
          {| world := w; calls := calls (env w) ++ [UT.ListFiles] |})
       /\ map FileRecord.key formattedFiles = map UT.key items
       /\ Forall placeholders formattedFiles
       /\ forall i, option_map FileRecord.uploadedAt (nth_error formattedFiles i)
                    = option_map (fun _ => noon i) (nth_error items i).
Proof.
  intros items response w.
  assert (Hcall : UT.listFiles (world (env w)) = (Resolved response, w))
    by reflexivity.
  assert (Hr : UT.truthy response = true) by reflexivity.
  assert (Hfiles : UT.prop response "files" = UT.JsArray items) by reflexivity.
  split; [exact Hcall | split; [exact Hr | split; [exact Hfiles |]]].
  exact (GET_listing noon (env w) response items w Hcall Hr Hfiles).
Defined.

Lemma PATCH_is_a_stub_witness :
  let w := {| listing := Resolved UT.JsNull; deleting := Resolved true |} in
  let patch := UT.JsObject [("name", UT.JsString "yeni.jpg")] in
  let request := {| searchParams := [("v", "1"); ("key", "abc"); ("key", "")];
                    request_json := Resolved patch |} in
  PATCH request (env w) =
    (Resolved {| body := Updated "Dosya bilgileri güncellendi" "abc" patch;
                 status := 200 |}, env w).
Proof.
  intros w patch request.
  refine (proj2 (PATCH_is_a_stub (env w) request) [("v", "1")] "abc" [("key", "")]
                eq_refl _).
  cbn. intros [H | []]. discriminate H.
Defined.

(** A body that does not parse is met before the key is looked at: a
    [PATCH] with neither a key nor a readable body is answered 500, not
    400. *)
Example PATCH_unparseable_without_key :
  let w := {| listing := Resolved UT.JsNull; deleting := Resolved true |} in
  let request := {| searchParams := [];
                    request_json := Rejected (Js.Error "Unexpected end of JSON input") |} in
  fst (PATCH request (env w)) =
    Resolved {| body := FailureDetails "Dosya güncellenirken hata oluştu"
                                       "Unexpected end of JSON input";
                status := 500 |}.
Proof.
  intros w request. reflexivity.
Qed.

(** A [PATCH] without a key is refused: the stub does not always
    succeed. *)
Lemma PATCH_without_key_counterexample :
  let w := {| listing := Resolved UT.JsNull; deleting := Resolved true |} in
  let request := {| searchParams := [];
                    request_json := Resolved (UT.JsObject [("name", UT.JsString "yeni.jpg")]) |} in
  fst (PATCH request (env w)) =
    Resolved {| body := Failure "Dosya anahtarı (key) gerekli"; status := 400 |}
  /\ success (Failure "Dosya anahtarı (key) gerekli") = false.
Proof.
  intros w request. split; reflexivity.
Qed.

End OnTheFacade.

(** ** The viewer *)

Section OnTheViewer.
Import Viewer ViewerProofs.

(** The scenario's listing on a network that refuses to delete [b],
    under the "all" filter: [a] goes, [b] stays, the count is 1. *)
Lemma bulk_delete_filtered_witness :
  let p := run ascii_toLowerCase [LoadFiles] (mount (serving (scenario None) ["b"])) in
  let fs := filteredFiles (filter (state p)) (files (state p)) in
  let p' := snd (handleDeleteAllFiles fs p) in
  let rs := requests (since p p') in
  NoDup (map key (files (state p)))
  /\ fs <> []
  /\ (map fst rs = map key fs
      /\ deletedCountInfo (state p') = length fs - length (rejected rs)
      /\ showDeleteSuccess (state p') = true
      /\ files (state p') =
           List.filter (fun f => negb (includes (deleted rs) (key f))) (files (state p))
      /\ filteredFiles (filter (state p')) (files (state p')) =
           List.filter (fun f => includes (rejected rs) (key f)) fs
      /\ length (filteredFiles (filter (state p')) (files (state p'))) =
           length (rejected rs)
      /\ List.filter (fun f => negb (includes (map key fs) (key f))) (files (state p')) =
           List.filter (fun f => negb (includes (map key fs) (key f))) (files (state p)))
  /\ rs = [("a", true); ("b", false)]
  /\ deletedCountInfo (state p') = 1
  /\ map key (files (state p')) = ["b"].
Proof.
  intros p fs p' rs.
  assert (Hnd : NoDup (map key (files (state p)))).
  { vm_compute. repeat constructor; cbn; intuition discriminate. }
  assert (Hne : fs <> []) by (vm_compute; discriminate).
  split; [exact Hnd | split; [exact Hne | split]].
  - exact (bulk_delete_filtered p Hnd Hne).
  - vm_compute. repeat split.
Defined.

(** The scenario's listing under the "image" filter, on a network that
    deletes everything: no request fails, yet the list in memory is
    not empty, for [b] was never in the filtered set. *)
Lemma bulk_delete_counterexample :
  let p := run ascii_toLowerCase [LoadFiles; SetFilter (only image)]
             (mount (serving (scenario None) [])) in
  let fs := filteredFiles (filter (state p)) (files (state p)) in
  let p' := snd (handleDeleteAllFiles fs p) in
  let rs := requests (since p p') in
  map key fs = ["a"]
  /\ rs = [("a", true)]
  /\ rejected rs = []
  /\ map key (files (state p')) = ["b"]
  /\ files (state p') <>
       List.filter (fun f => includes (rejected rs) (key f)) (files (state p)).
Proof.
  intros p fs p' rs. repeat split. vm_compute. discriminate.
Qed.

End OnTheViewer.

End Instances.

(* ================================================================== *)
(** * The facade: every response, every provider call *)

Module FacadeMore.
Import Js Facade.

Section WithProvider.
Context {World : Type} {utapi : UT.UTApi World}.
Variable now : nat -> string.

(** Whatever the provider and the request, each handler answers, with
    status 200, 400 or 500, and its body says [success: true] exactly when
    the status is 200.  [GET] never answers 400. *)
Theorem responses_are_coherent (env : Env World) (request : NextRequest) :
  match fst (GET now env), fst (DELETE request env), fst (PATCH request env) with
  | Resolved g, Resolved d, Resolved u =>
      (status g = 200 \/ status g = 500)
      /\ (status d = 200 \/ status d = 400 \/ status d = 500)
      /\ (status u = 200 \/ status u = 400 \/ status u = 500)
      /\ (success (body g) = true <-> status g = 200)
      /\ (success (body d) = true <-> status d = 200)
      /\ (success (body u) = true <-> status u = 200)
  | _, _, _ => False
  end.
Proof.
  assert (G : exists g, fst (GET now env) = Resolved g
                        /\ (status g = 200 \/ status g = 500)
                        /\ (success (body g) = true <-> status g = 200)).
  { FacadeProofs.handler.
    destruct (UT.listFiles (world env)) as [[response | e] w]; cbn [fst].
    - destruct (UT.truthy response).
      + destruct (UT.truthy (UT.prop response "files")); cbn [negb].
        * destruct (UT.prop response "files"); eexists; (split; [reflexivity |]);
            cbn; intuition discriminate.
        * eexists; (split; [reflexivity |]); cbn; intuition discriminate.
      + eexists; (split; [reflexivity |]); cbn; intuition discriminate.
    - eexists; (split; [reflexivity |]); cbn; intuition discriminate. }
  assert (D : exists d, fst (DELETE request env) = Resolved d
                        /\ (status d = 200 \/ status d = 400 \/ status d = 500)
                        /\ (success (body d) = true <-> status d = 200)).
  { FacadeProofs.handler.
    destruct (get (searchParams request) "key") as [k |].
    - destruct (nonempty k).
      + destruct (UT.deleteFiles [k] (world env)) as [[deleteResponse | e] w]; cbn [fst].
        * destruct (UT.success deleteResponse); eexists; (split; [reflexivity |]);
            cbn; intuition discriminate.
        * eexists; (split; [reflexivity |]); cbn; intuition discriminate.
      + eexists; (split; [reflexivity |]); cbn; intuition discriminate.
    - eexists; (split; [reflexivity |]); cbn; intuition discriminate. }
  assert (U : exists u, fst (PATCH request env) = Resolved u
                        /\ (status u = 200 \/ status u = 400 \/ status u = 500)
                        /\ (success (body u) = true <-> status u = 200)).
  { FacadeProofs.handler.
    destruct (request_json request) as [b | e]; cbn [fst].
    - destruct (get (searchParams request) "key") as [k |].
      + destruct (nonempty k); eexists; (split; [reflexivity |]);
          cbn; intuition discriminate.
      + eexists; (split; [reflexivity |]); cbn; intuition discriminate.
    - eexists; (split; [reflexivity |]); cbn; intuition discriminate. }
  destruct G as (g & -> & Hg1 & Hg2), D as (d & -> & Hd1 & Hd2),
           U as (u & -> & Hu1 & Hu2).
  repeat split; tauto.
Qed.

(** The provider calls of a request: [GET] lists once and never
    deletes; [DELETE] never lists and deletes at most once, one key, the
    first [key] parameter when it is not empty; [PATCH] calls nothing. *)
Theorem provider_calls (env : Env World) (request : NextRequest) :
  calls (snd (GET now env)) = calls env ++ [UT.ListFiles]
  /\ calls (snd (DELETE request env)) =
       calls env ++ match get (searchParams request) "key" with
                    | Some k => if nonempty k then [UT.DeleteFiles [k]] else []
                    | None => []
                    end
  /\ calls (snd (PATCH request env)) = calls env.
Proof.
  repeat split; FacadeProofs.handler.
  - destruct (UT.listFiles (world env)) as [[response | e] w]; [| reflexivity].
    destruct (UT.truthy response); [| reflexivity].
    destruct (UT.truthy (UT.prop response "files")); cbn [negb]; [| reflexivity].
    destruct (UT.prop response "files"); reflexivity.
  - destruct (get (searchParams request) "key") as [k |];
      [| cbn; rewrite app_nil_r; reflexivity].
    destruct (nonempty k); [| cbn; rewrite app_nil_r; reflexivity].
    destruct (UT.deleteFiles [k] (world env)) as [[deleteResponse | e] w];
      [| reflexivity].
    destruct (UT.success deleteResponse); reflexivity.
  - destruct (request_json request) as [b | e]; [| reflexivity].
    destruct (get (searchParams request) "key") as [k |]; [| reflexivity].
    destruct (nonempty k); reflexivity.
Qed.

(** Every body [GET] sends has [files] and [total], and [total] is the
    number of [files]; no record has an empty [customId], and every
    record has the placeholders. *)
Theorem GET_total_counts_files (env : Env World) :
  match fst (GET now env) with
  | Resolved r =>
      exists fs, files (body r) = Some fs
                 /\ total (body r) = Some (length fs)
                 /\ Forall placeholders fs
                 /\ Forall (fun f => FileRecord.customId f <> Some "") fs
  | Rejected _ => False
  end.
Proof.
  assert (Hc : forall items i,
             Forall (fun f => FileRecord.customId f <> Some "") (map_from now i items)).
  { induction items as [| file rest IH]; intros i; cbn; constructor; [| apply IH].
    cbn. destruct (UT.customId file) as [c |]; [| discriminate].
    unfold nonempty. destruct (String.eqb_spec c "") as [-> | Hne]; cbn;
      [discriminate | congruence]. }
  FacadeProofs.handler.
  destruct (UT.listFiles (world env)) as [[response | e] w]; cbn [fst].
  - destruct (UT.truthy response).
    + destruct (UT.truthy (UT.prop response "files")); cbn [negb].
      * destruct (UT.prop response "files"); cbn;
          try (exists []; repeat split; constructor).
        exists (map_from now 0 items). repeat split.
        -- apply FacadeProofs.map_from_placeholders.
        -- apply Hc.
      * exists []. repeat split; constructor.
    + exists []. repeat split; constructor.
  - exists []. repeat split; constructor.
Qed.

End WithProvider.

End FacadeMore.

(* ================================================================== *)
(** * The viewer: names, types and what stays in memory *)

Module ViewerMore.
Import Js Viewer.

(** ** File names *)

Lemma split_cons (sep : ascii) (s : string) :
  exists seg segs, split sep s = seg :: segs.
Proof.
  destruct s as [| c rest]; cbn; [eauto |].
  destruct (Ascii.eqb c sep); [eauto |]. destruct (split sep rest); eauto.
Qed.

Lemma join_cons (sep : ascii) (c : ascii) (seg : string) (segs : list string) :
  Card.join sep (String c seg :: segs) = String c (Card.join sep (seg :: segs)).
Proof. destruct segs; reflexivity. Qed.

(** Splitting a string at a character and joining the pieces with it
    gives the string back. *)
Theorem split_join (sep : ascii) (s : string) :
  Card.join sep (split sep s) = s.
Proof.
  induction s as [| c rest IH]; [reflexivity |].
  cbn [split]. destruct (Ascii.eqb_spec c sep) as [-> | Hc].
  - destruct (split_cons sep rest) as (seg & segs & E). rewrite E in *.
    change (Card.join sep (EmptyString :: seg :: segs))
      with (String sep (Card.join sep (seg :: segs))).
    rewrite IH. reflexivity.
  - destruct (split_cons sep rest) as (seg & segs & E). rewrite E in *.
    rewrite join_cons, IH. reflexivity.
Qed.

Lemma split_free (sep : ascii) (s : string) :
  Forall (fun seg => Card.free_of sep seg = true) (split sep s).
Proof.
  induction s as [| c rest IH]; [repeat constructor |].
  cbn [split]. destruct (Ascii.eqb c sep) eqn:Hc.
  - constructor; [reflexivity | exact IH].
  - destruct (split sep rest) as [| seg segs]; [repeat constructor; cbn; now rewrite Hc |].
    inversion IH as [| ? ? Hseg Hsegs]; subst. constructor; [| exact Hsegs].
    cbn. rewrite Hc, Hseg. reflexivity.
Qed.

Lemma last_cons {A} (a : list A) (x d : A) : last (x :: a) d = last a x.
Proof.
  revert x d. induction a as [| y a IH]; intros x d; [reflexivity |].
  change (last (x :: y :: a) d) with (last (y :: a) d).
  rewrite (IH y d), (IH y x). reflexivity.
Qed.

Lemma pop_snoc (a : list string) (seg : string) :
  pop (seg :: a) = Some (last a seg)
  /\ seg :: a = removelast (seg :: a) ++ [last a seg].
Proof.
  revert seg. induction a as [| x a IH]; intros seg; [split; reflexivity |].
  destruct (IH x) as [Hp Hl]. split.
  - change (pop (seg :: x :: a)) with (pop (x :: a)).
    rewrite Hp, last_cons. reflexivity.
  - change (removelast (seg :: x :: a)) with (seg :: removelast (x :: a)).
    rewrite last_cons. cbn [app]. rewrite <- Hl. reflexivity.
Qed.

Lemma append_assoc (s1 s2 s3 : string) :
  ((s1 ++ s2) ++ s3 = s1 ++ (s2 ++ s3))%string.
Proof. induction s1 as [| c s1 IH]; [reflexivity | cbn; rewrite IH; reflexivity]. Qed.

Lemma join_snoc (sep : ascii) (init : list string) (x : string) :
  init <> [] ->
  Card.join sep (init ++ [x]) = (Card.join sep init ++ String sep x)%string.
Proof.
  induction init as [| y init IH]; intros Hne; [contradiction |].
  destruct init as [| z init]; [reflexivity |].
  change (Card.join sep ((y :: z :: init) ++ [x]))
    with (y ++ String sep (Card.join sep ((z :: init) ++ [x])))%string.
  rewrite IH by discriminate.
  change (Card.join sep (y :: z :: init))
    with (y ++ String sep (Card.join sep (z :: init)))%string.
  rewrite append_assoc. reflexivity.
Qed.

(** The extension [getFileType] looks at always exists: it is what
    follows the last dot of the name, it has no dot itself, and it is the
    whole name when the name has no dot. *)
Theorem extension_is_last_segment (name : string) :
  exists ext,
    pop (split "." name) = Some ext
    /\ Card.free_of "." ext = true
    /\ (if Card.free_of "." name then name = ext
        else exists stem, name = (stem ++ String "." ext)%string).
Proof.
  destruct (split_cons "." name) as (seg & segs & E).
  destruct (pop_snoc segs seg) as [Hp Hl].
  exists (last segs seg). rewrite E. split; [exact Hp |].
  pose proof (split_free "." name) as Hfree. rewrite E, Hl in Hfree.
  apply Forall_app in Hfree. destruct Hfree as [Hinit Hlast].
  inversion Hlast as [| ? ? Hext _]; subst. split; [exact Hext |].
  pose proof (split_join "." name) as Hj. rewrite E, Hl in Hj.
  destruct (removelast (seg :: segs)) as [| y init] eqn:Hrem.
  - cbn in Hj. rewrite <- Hj, Hext. reflexivity.
  - rewrite join_snoc in Hj by discriminate.
    assert (Hdot : Card.free_of "." name = false).
    { rewrite <- Hj. clear. generalize (Card.join "." (y :: init)) as stem.
      induction stem as [| c stem IH]; [reflexivity |].
      cbn. rewrite IH. apply andb_false_r. }
    rewrite Hdot. eexists. symmetry. exact Hj.
Qed.

(** ** Types *)



(** The revision without text files gives images, videos and audio files
    the same type as the one with them, and no type to the rest. *)
Theorem without_text_agrees (toLowerCase : string -> string) (file : FileData) :
  Card.getFileType_without_text toLowerCase file =
  match getFileType toLowerCase file with
  | Some text => None
  | other => other
  end.
Proof.
  unfold Card.getFileType_without_text, getFileType.
  destruct (startsWith _ "image/" || _); [reflexivity |].
  destruct (startsWith _ "video/" || _); [reflexivity |].
  destruct (startsWith _ "audio/" || _); [reflexivity |].
  destruct (startsWith _ "text/" || _); reflexivity.
Qed.

(** ** The text of a card *)










(** ** What stays in memory *)

Section Component.
Context {World : Type} {backend : Backend World}.
Variable toLowerCase : string -> string.

(** The list after an action: the supported records of a listing that
    arrived, or some of the records it had, in their order. *)
Lemma perform_files (a : Action) (p : Page World) :
  (exists q, files (state (snd (perform toLowerCase a p))) =
             List.filter q (files (state p)))
  \/ (a = LoadFiles
      /\ exists data_files data_error,
           fst (fetch_list (network p)) = Resolved (Body true data_files data_error)
           /\ files (state (snd (perform toLowerCase a p))) =
                supportedFiles toLowerCase data_files).
Proof.
  assert (Hsame : forall l : list FileData, exists q, l = List.filter q l)
    by (intros l; exists (fun _ => true); symmetry; apply ViewerProofs.filter_all).
  assert (Hall : forall fs, exists q,
             files (state (snd (handleDeleteAllFiles fs p))) =
             List.filter q (files (state p))).
  { intros [| x rest]; [apply Hsame |].
    destruct (ViewerProofs.handleDeleteAllFiles_spec (x :: rest) p)
      as (outs & _ & _ & Hf & _); [discriminate |].
    eexists. exact Hf. }
  destruct a; cbn [perform].
  - rewrite (ViewerProofs.loadFiles_files toLowerCase).
    destruct (fst (fetch_list (network p)))
      as [[status | [] data_files data_error] | e] eqn:E;
      try (left; apply Hsame).
    right. split; [reflexivity |]. eauto.
  - left. rewrite ViewerProofs.handleDeleteFile_files.
    destruct (fst (deleteFile (key file) p)); [eexists; reflexivity | apply Hsame].
  - left. apply Hall.
  - left. unfold bind, read. apply Hall.
  - left. apply Hsame.
  - left. apply Hsame.
  - left. apply Hsame.
  - left. apply Hsame.
  - left. destruct cb. apply Hsame.
Qed.

(** No action but a load adds, changes or reorders a record: after any
    other action the list holds some of the records it had, in their
    order. *)
Theorem only_a_load_adds_records (a : Action) (p : Page World) :
  match a with
  | LoadFiles => True
  | _ => exists q, files (state (snd (perform toLowerCase a p))) =
                   List.filter q (files (state p))
  end.
Proof.
  destruct (perform_files a p) as [H | [E _]];
    destruct a; try exact I; try exact H; discriminate.
Qed.

Lemma classified_keys (l : list FileData) :
  map key (map (classified toLowerCase) l) = map key l.
Proof. rewrite map_map. reflexivity. Qed.

(** Unique keys stay unique: through every delete, filter change and
    timer, and through a load whose listing has unique keys. *)
Theorem unique_keys_kept (a : Action) (p : Page World) :
  NoDup (map key (files (state p))) ->
  match a, fst (fetch_list (network p)) with
  | LoadFiles, Resolved (Body true data_files _) => NoDup (map key data_files)
  | _, _ => True
  end ->
  NoDup (map key (files (state (snd (perform toLowerCase a p))))).
Proof.
  intros Hnd Hload.
  destruct (perform_files a p) as [[q ->] | (-> & data_files & data_error & E & ->)].
  - apply ViewerProofs.NoDup_keys_filter, Hnd.
  - rewrite E in Hload. rewrite ViewerProofs.supportedFiles_known, classified_keys.
    apply ViewerProofs.NoDup_keys_filter, Hload.
Qed.

Lemma run_keeps (P : FileData -> bool) :
  (forall f, P (classified toLowerCase f) = true) ->
  forall (script : list Action) (p : Page World),
  forallb P (files (state p)) = true ->
  forallb P (files (state (run toLowerCase script p))) = true.
Proof.
  intros HP. induction script as [| a rest IH]; intros p H; [exact H |].
  cbn [run]. apply IH.
  destruct (perform_files a p) as [[q ->] | (_ & data_files & _ & _ & ->)].
  - apply ViewerProofs.forallb_kept, H.
  - apply forallb_forall. intros f Hf. unfold supportedFiles in Hf.
    apply filter_In in Hf. destruct Hf as [Hf _].
    apply in_map_iff in Hf. destruct Hf as (g & <- & _). apply HP.
Qed.

Lemma nonempty_iff (s : string) : nonempty s = true <-> s <> "".
Proof.
  unfold nonempty. destruct (String.eqb_spec s ""); cbn; split; congruence.
Qed.

Lemma classified_shown (r : FileData) :
  name (classified toLowerCase r) = Rules.shown_name (name r) (fileName r)
  /\ size (classified toLowerCase r) = Some (Rules.shown_size (size r) (fileSize r)).
Proof.
  cbn [classified name size]. split.
  - destruct (name r) as [| c n]; [| reflexivity].
    destruct (fileName r) as [[| c n] |]; reflexivity.
  - destruct (size r) as [[| n] |], (fileSize r) as [[| m] |]; reflexivity.
Qed.

Lemma shown_name_nonempty (own : string) (other : option string) :
  Rules.shown_name own other <> "".
Proof.
  destruct own as [| c n]; [| discriminate].
  destruct other as [[| c n] |]; discriminate.
Qed.

(** Whatever has happened since the component was created, every record
    in memory has a name that is not empty and a size.  And every record
    an action leaves in memory was in memory before it, or is a record of
    the listing that has just arrived, with the same key, named by its
    own name, or else by its [fileName], or else 'İsimsiz dosya', and
    sized by its own size, or else by its [fileSize], or else zero. *)
Theorem records_always_named (w : World) (script : list Action) :
  let p := run toLowerCase script (mount w) in
  Forall (fun f => name f <> "" /\ exists n, size f = Some n) (files (state p))
  /\ forall a f,
       In f (files (state (snd (perform toLowerCase a p)))) ->
       In f (files (state p))
       \/ exists r,
            match fst (fetch_list (network p)) with
            | Resolved (Body true data_files _) => In r data_files
            | _ => False
            end
            /\ key f = key r
            /\ name f = match name r, fileName r with
                        | String c n, _ => String c n
                        | EmptyString, Some (String c n) => String c n
                        | EmptyString, _ => "İsimsiz dosya"
                        end
            /\ size f = Some match size r, fileSize r with
                             | Some (S n), _ => S n
                             | _, Some (S n) => S n
                             | _, _ => 0
                             end.
Proof.
  intros p. split.
  - apply Forall_forall. intros f Hf.
    assert (H : forallb (fun f => nonempty (name f)
                                  && match size f with Some _ => true | None => false end)
                        (files (state p)) = true).
    { apply run_keeps; [| reflexivity].
      intros g. destruct (classified_shown g) as [-> ->]. rewrite andb_true_r.
      apply nonempty_iff, shown_name_nonempty. }
    rewrite forallb_forall in H. specialize (H f Hf).
    apply andb_true_iff in H. destruct H as [Hn Hs]. split.
    + apply nonempty_iff, Hn.
    + destruct (size f) as [n |]; [eauto | discriminate].
  - intros a f Hf.
    destruct (perform_files a p) as [[q E] | (_ & data_files & data_error & E & Hfiles)].
    + left. rewrite E in Hf. apply filter_In in Hf. tauto.
    + right. rewrite Hfiles in Hf. unfold supportedFiles in Hf.
      apply filter_In in Hf. destruct Hf as [Hf _].
      apply in_map_iff in Hf. destruct Hf as (r & <- & Hr).
      exists r. rewrite E. destruct (classified_shown r) as [Hn Hs].
      split; [exact Hr | split; [reflexivity | split; [exact Hn | exact Hs]]].
Qed.

(** ** Loading *)

Lemma load_text_keys (textFiles : list FileData) :
  forall (m : list (string * string)) (p : Page World),
  map fst (fst (load_text textFiles m p)) = rev (map key textFiles) ++ map fst m.
Proof.
  induction textFiles as [| f rest IH]; intros m p; [reflexivity |].
  cbn [load_text]. unfold bind at 1.
  destruct (fetchTextContent (url f) p) as [content p1].
  rewrite IH. cbn [map rev fst]. rewrite <- app_assoc. reflexivity.
Qed.

Lemma lookup_In (k v : string) (m : list (string * string)) :
  Card.lookup k m = Some v -> In (k, v) m.
Proof.
  induction m as [| [k' v'] m IH]; [discriminate |].
  cbn [Card.lookup]. destruct (String.eqb_spec k' k) as [-> | _].
  - intros [= ->]. left. reflexivity.
  - intros H. right. apply IH, H.
Qed.

Lemma lookup_bound (k : string) (m : list (string * string)) :
  In k (map fst m) -> Card.lookup k m <> None.
Proof.
  induction m as [| [k' v] m IH]; [contradiction |].
  cbn [map fst Card.lookup]. intros [-> | H].
  - rewrite String.eqb_refl. discriminate.
  - destruct (k' =? k)%string; [discriminate | apply IH, H].
Qed.

(** The page after a listing that arrived with [success]. *)
Lemma loadFiles_loads (p : Page World) :
  let p' := snd (loadFiles toLowerCase p) in
  match fst (fetch_list (network p)) with
  | Resolved (Body true data_files _) =>
      error (state p') = error (state p)
      /\ loading (state p') = false
      /\ files (state p') = supportedFiles toLowerCase data_files
      /\ map fst (textContent (state p')) =
           rev (map key (List.filter (fileType_is (only text)) (files (state p'))))
      /\ forallb (fun f => negb (fileType_is (only text) f)
                           || match Card.lookup (key f) (textContent (state p')) with
                              | Some _ => true
                              | None => false
                              end)
                 (files (state p')) = true
      /\ effects p' = effects p
  | _ => True
  end.
Proof.
  cbv zeta. unfold loadFiles, bind, fetch_files, update, ret. cbv beta iota.
  cbn [state network effects].
  destruct (fetch_list (network p)) as [[[status | [] data_files data_error] | e] w];
    cbn [fst]; try exact I.
  cbv beta iota zeta. cbn [state network effects].
  match goal with
  | |- context [load_text ?tf ?m ?q] =>
      pose proof (ViewerProofs.load_text_page tf m q) as [Hs He];
      pose proof (load_text_keys tf m q) as Hk;
      destruct (load_text tf m q) as [tc p2]
  end.
  cbn [fst snd] in Hs, He, Hk. cbn [snd state effects]. rewrite Hs, He.
  cbn [state effects error loading files textContent setLoading setTextContent
       setFiles].
  rewrite app_nil_r in Hk.
  repeat split; try assumption.
  apply forallb_forall. intros f Hf.
  destruct (fileType_is (only text) f) eqn:Et; [| reflexivity]. cbn [negb orb].
  assert (Hin : In (key f) (map fst tc)).
  { rewrite Hk, <- in_rev. apply in_map. apply filter_In. split; assumption. }
  apply lookup_bound in Hin. destruct (Card.lookup (key f) tc); [reflexivity | congruence].
Qed.

(** A listing that arrives with [success], its [files] an array of
    records that each carry a name, loads, whether the text files can be
    fetched or not: the error is left as it was; the spinner stops; the
    list is the stored form of the records that have a type, in the
    listing's order; the text map has one entry per text record in
    memory, whatever the fetch of its content gave, and no other entry;
    no alert or timer is raised. *)
Theorem text_failures_do_not_fail_the_load (p : Page World) :
  let p' := snd (loadFiles toLowerCase p) in
  let is_text := fun f => match fileType f with Some text => true | _ => false end in
  match fst (fetch_list (network p)) with
  | Resolved (Body true data_files _) =>
      error (state p') = error (state p)
      /\ loading (state p') = false
      /\ files (state p') =
           List.filter (fun f => match fileType f with Some _ => true | None => false end)
                       (map (classified toLowerCase) data_files)
      /\ map fst (textContent (state p')) =
           rev (map key (List.filter is_text (files (state p'))))
      /\ (forall f, In f (files (state p')) -> fileType f = Some text ->
                    exists content, In (key f, content) (textContent (state p')))
      /\ effects p' = effects p
  | _ => True
  end.
Proof.
  cbv zeta. pose proof (loadFiles_loads p) as H. cbv zeta in H.
  destruct (fst (fetch_list (network p))) as [[status | [] data_files data_error] | e];
    try exact I.
  destruct H as (He & Hl & Hf & Hk & Hlook & Heff).
  split; [exact He | split; [exact Hl | split; [exact Hf | split; [exact Hk |]]]].
  split; [| exact Heff].
  intros f Hin Ht. rewrite forallb_forall in Hlook. specialize (Hlook f Hin).
  unfold fileType_is in Hlook. rewrite Ht in Hlook. cbn [FileType_eqb negb orb] in Hlook.
  destruct (Card.lookup (key f) (textContent (state (snd (loadFiles toLowerCase p)))))
    as [content |] eqn:E; [| discriminate].
  exists content. apply lookup_In, E.
Qed.

(** A listing that does not arrive, or is refused, fails the load: the
    list and the text map stay as they were, the error is set (to the
    HTTP status, to the listing's own error or "Dosyalar yüklenemedi", or
    to the message of what was thrown), and the spinner stops. *)
Theorem failed_load_keeps_the_list (p : Page World) :
  let p' := snd (loadFiles toLowerCase p) in
  match fst (fetch_list (network p)) with
  | Resolved (Body true _ _) => True
  | failure =>
      files (state p') = files (state p)
      /\ textContent (state p') = textContent (state p)
      /\ selectedFile (state p') = selectedFile (state p)
      /\ loading (state p') = false
      /\ effects p' = effects p
      /\ error (state p') =
           Some match failure with
                | Resolved (NotOk status) => ("HTTP error! status: " ++ status)%string
                | Resolved (Body _ _ (Some e)) =>
                    if nonempty e then e else "Dosyalar yüklenemedi"
                | Resolved (Body _ _ None) => "Dosyalar yüklenemedi"
                | Rejected err => errorMessage err
                end
  end.
Proof.
  cbv zeta. unfold loadFiles, bind, fetch_files, update, ret. cbv beta iota.
  cbn [state network effects].
  destruct (fetch_list (network p))
    as [[[status | [] data_files [e |]] | err] w]; cbn [fst]; try exact I;
    repeat split.
Qed.

(** ** Bulk delete over any list *)

Lemma handleDeleteAllFiles_state (fs : list FileData) (p : Page World) :
  fs <> [] ->
  exists outs : list bool,
    length outs = length fs
    /\ effects (snd (handleDeleteAllFiles fs p)) =
         effects p ++ loop_effects fs outs ++ [SetTimeout HideDeleteSuccess 4000]
    /\ state (snd (handleDeleteAllFiles fs p)) =
         setIsDeletingAll false
           (setShowDeleteAllConfirm false
              (setShowDeleteSuccess true
                 (setDeletedCountInfo (length (deleted (combine (map key fs) outs)))
                    (setFiles
                       (List.filter
                          (fun f => negb (includes
                                            (deleted (combine (map key fs) outs))
                                            (key f))))
                       (setIsDeletingAll true (state p)))))).
Proof.
  intros Hne. destruct fs as [| x rest]; [contradiction |].
  remember (x :: rest) as fs eqn:Hfs.
  assert (E : handleDeleteAllFiles fs p =
              let r := delete_each fs 0
                         {| state := setIsDeletingAll true (state p);
                            network := network p; effects := effects p |} in
              (tt, {| state := setIsDeletingAll false
                                 (setShowDeleteAllConfirm false
                                    (setShowDeleteSuccess true
                                       (setDeletedCountInfo (fst r) (state (snd r)))));
                      network := network (snd r);
                      effects := effects (snd r) ++ [SetTimeout HideDeleteSuccess 4000] |})).
  { subst fs. unfold handleDeleteAllFiles, bind, update, emit, ret. cbv beta iota zeta.
    cbn [state network effects].
    destruct (delete_each (x :: rest) 0 _) as [c p1]. reflexivity. }
  rewrite E. cbv zeta. cbn [snd state network effects].
  match goal with
  | |- context [delete_each fs 0 ?q] =>
      destruct (ViewerProofs.delete_each_spec fs 0 q)
        as (outs & Hlen & Heff & Hcount & Hstate)
  end.
  exists outs. rewrite Heff, Hcount, Hstate. cbn [state network effects Nat.add].
  rewrite <- app_assoc. repeat split; assumption.
Qed.

Lemma loop_effects_delays (fs : list FileData) :
  forall outs : list bool,
  length outs = length fs ->
  List.filter (fun e => match e with Delay _ => true | _ => false end)
              (loop_effects fs outs ++ [SetTimeout HideDeleteSuccess 4000])
  = repeat (Delay 100) (length fs)
  /\ forallb (fun e => match e with Alert _ => false | _ => true end)
             (loop_effects fs outs ++ [SetTimeout HideDeleteSuccess 4000]) = true.
Proof.
  unfold loop_effects.
  induction fs as [| f fs IH]; intros [| o outs] Hlen; try discriminate;
    [split; reflexivity |].
  injection Hlen as Hlen. destruct (IH outs Hlen) as [Hd Ha].
  cbn [combine flat_map app List.filter forallb length repeat andb fst snd].
  rewrite Hd, Ha. split; reflexivity.
Qed.

(** A bulk delete over any list, duplicates and failures included.
    Over the empty list nothing happens at all.  Otherwise every file of
    the list is asked for once, in order, with a wait of 100 ms after each
    one; no alert is ever raised; the list loses the records whose key was
    deleted and the notice shows their number, which is 0 when every
    request fails; the dialog closes and the busy flag is down; and the
    detail view, the single-delete dialog and the filter are left as they
    were, even when the record they show was deleted. *)
Theorem bulk_delete_any_list (fs : list FileData) (p : Page World) :
  let p' := snd (handleDeleteAllFiles fs p) in
  let new := since p p' in
  let rs := requests new in
  match fs with
  | [] => p' = p
  | _ =>
      map fst rs = map key fs
      /\ List.filter (fun e => match e with Delay _ => true | _ => false end) new
         = repeat (Delay 100) (length fs)
      /\ forallb (fun e => match e with Alert _ => false | _ => true end) new = true
      /\ files (state p') =
           List.filter (fun f => negb (includes (deleted rs) (key f))) (files (state p))
      /\ deletedCountInfo (state p') = length (deleted rs)
      /\ showDeleteSuccess (state p') = true
      /\ showDeleteAllConfirm (state p') = false
      /\ isDeletingAll (state p') = false
      /\ selectedFile (state p') = selectedFile (state p)
      /\ fileToDelete (state p') = fileToDelete (state p)
      /\ filter (state p') = filter (state p)
  end.
Proof.
  intros p' new rs. destruct fs as [| x rest]; [reflexivity |].
  remember (x :: rest) as fs eqn:Hfs.
  destruct (handleDeleteAllFiles_state fs p) as (outs & Hlen & Heff & Hstate);
    [subst fs; discriminate |].
  fold p' in Heff, Hstate.
  assert (Hnew : new = loop_effects fs outs ++ [SetTimeout HideDeleteSuccess 4000]).
  { unfold new, since. rewrite Heff. apply ViewerProofs.skipn_past. }
  assert (Hrs : rs = combine (map key fs) outs).
  { unfold rs. rewrite Hnew, ViewerProofs.requests_loop. apply app_nil_r. }
  destruct (loop_effects_delays fs outs Hlen) as [Hd Ha].
  rewrite Hnew, Hrs, Hstate. cbn.
  repeat split; try assumption.
  apply ViewerProofs.combine_keys. rewrite length_map. exact Hlen.
Qed.

(** The three steps of a deletion from the detail view. *)
Lemma preview_delete_steps (file : FileData) (p : Page World) :
  let p' := run toLowerCase
              [SetFileToDelete (Some file); SetSelectedFile None; DeleteFile file] p in
  selectedFile (state p') = None
  /\ (if fst (deleteFile (key file) p)
      then fileToDelete (state p') = None
           /\ files (state p') = List.filter (other_key file) (files (state p))
      else fileToDelete (state p') = Some file
           /\ files (state p') = files (state p)).
Proof.
  cbv zeta. cbn [run perform].
  set (q := snd (update (setSelectedFile None)
                   (snd (update (setFileToDelete (Some file)) p)))).
  assert (Hfst : fst (deleteFile (key file) q) = fst (deleteFile (key file) p)).
  { unfold deleteFile. change (network q) with (network p).
    destruct (fetch_delete (key file) (network p)) as [[ok | e] w]; reflexivity. }
  rewrite <- Hfst. unfold handleDeleteFile, bind.
  pose proof (ViewerProofs.deleteFile_page (key file) q) as Hp1.
  destruct (deleteFile (key file) q) as [ok p1]. cbn [fst snd] in Hp1 |- *. subst p1.
  destruct ok.
  - unfold update, read, emit, ret. cbv beta iota. cbn.
    repeat split; reflexivity.
  - unfold emit. cbn. repeat split.
Qed.

(** Deleting from the detail view: its button asks for the deletion and
    closes the view, then the dialog's button deletes.  The view is closed
    afterwards either way; when the request is answered with success the
    dialog closes and the list holds the records it had whose key is
    another one, so none with that key; when the request fails or is
    refused the dialog stays open on the file and the list is as it
    was. *)
Theorem delete_from_the_preview (file : FileData) (p : Page World) :
  let p' := run toLowerCase
              [SetFileToDelete (Some file); SetSelectedFile None; DeleteFile file] p in
  selectedFile (state p') = None
  /\ match fst (fetch_delete (key file) (network p)) with
     | Resolved true =>
         fileToDelete (state p') = None
         /\ (forall f, In f (files (state p')) <->
                       In f (files (state p)) /\ key f <> key file)
     | _ =>
         fileToDelete (state p') = Some file
         /\ files (state p') = files (state p)
     end.
Proof.
  cbv zeta. destruct (preview_delete_steps file p) as [Hsel H]. cbv zeta in H.
  split; [exact Hsel |]. unfold deleteFile in H.
  destruct (fetch_delete (key file) (network p)) as [[[] | e] w]; cbn [fst] in H |- *;
    try exact H.
  destruct H as [Hd Hf]. split; [exact Hd |]. intros f. rewrite Hf, filter_In.
  unfold other_key. destruct (String.eqb_spec (key f) (key file)); cbn;
    intuition congruence.
Qed.

End Component.

End ViewerMore.

(* ================================================================== *)
(** * The viewer: the participants roster *)

Module ParticipantsProofs.
Import Js Participants.

(** The roster is numbered from 1, one number per name, in the order of
    the names. *)
Theorem roster_numbering (names : list string) :
  map fst (roster names) = seq 1 (length names)
  /\ map snd (roster names) = names.
Proof.
  unfold roster.
  assert (H : forall i, map fst (roster_from i names) = seq (i + 1) (length names)
                        /\ map snd (roster_from i names) = names).
  { induction names as [| n rest IH]; intros i; [split; reflexivity |].
    destruct (IH (S i)) as [H1 H2]. cbn [roster_from map fst snd length seq].
    rewrite H1, H2. replace (S i + 1) with (S (i + 1)) by lia. split; reflexivity. }
  exact (H 0).
Qed.

Section Loading.
Context {World : Type} {backend : Viewer.Backend World}.
Variable toLowerCase : string -> string.
Variable JSON_parse : string -> option Parsed.

Lemma find_none_no_json (data_files : list Viewer.FileData) :
  List.find (isParticipantsFile toLowerCase) data_files = None ->
  List.filter (isJson toLowerCase) data_files = [].
Proof.
  induction data_files as [| f rest IH]; [reflexivity |].
  cbn [List.find List.filter]. unfold isParticipantsFile at 1, isJson at 1.
  cbv zeta. destruct (endsWith ".json" (lowerName toLowerCase f)).
  - rewrite !orb_true_r. discriminate.
  - destruct (_ || _); [discriminate | exact IH].
Qed.

(** The second attempt of [loadParticipants] never runs: when no record
    of the listing passes the first test, none ends in ".json" either, so
    the outcome is always the error "Hiç JSON dosyası bulunamadı", with the
    roster as it was and no request beyond the listing. *)
Theorem second_attempt_never_runs (p : Page World) :
  let p' := loadParticipants toLowerCase JSON_parse p in
  match fst (Viewer.fetch_list (network p)) with
  | Resolved (Viewer.Body true data_files _) =>
      match List.find (isParticipantsFile toLowerCase) data_files with
      | None =>
          List.filter (isJson toLowerCase) data_files = []
          /\ participantsError (state p') = Some "Hiç JSON dosyası bulunamadı"
          /\ participants (state p') = participants (state p)
          /\ network p' = snd (Viewer.fetch_list (network p))
      | Some _ => True
      end
  | _ => True
  end.
Proof.
  cbv zeta. unfold loadParticipants.
  destruct (Viewer.fetch_list (network p))
    as [[[status | [] data_files data_error] | e] w]; cbn [fst snd]; try exact I.
  destruct (List.find (isParticipantsFile toLowerCase) data_files) eqn:E; [exact I |].
  rewrite (find_none_no_json data_files E). repeat split.
Qed.

(** [loadParticipants] always stops its spinner, and an error never
    comes with a new roster: afterwards either the error is clear or the
    roster is the one from before.  A listing refused with [success:
    false] is not reported at all: error and roster stay as they were. *)
Theorem loadParticipants_settles (p : Page World) :
  let p' := loadParticipants toLowerCase JSON_parse p in
  participantsLoading (state p') = false
  /\ (participantsError (state p') = None
      \/ participants (state p') = participants (state p))
  /\ match fst (Viewer.fetch_list (network p)) with
     | Resolved (Viewer.Body false _ _) =>
         participantsError (state p') = participantsError (state p)
         /\ participants (state p') = participants (state p)
     | _ => True
     end.
Proof.
  cbv zeta. unfold loadParticipants, readJson.
  destruct (Viewer.fetch_list (network p))
    as [[[status | [] data_files data_error] | e] w]; cbn [fst snd];
    try (repeat split; right; reflexivity).
  destruct (List.find (isParticipantsFile toLowerCase) data_files) as [f |].
  - destruct (Viewer.fetch_text (Viewer.url f) w) as [[txt | e] w']; cbn [fst snd];
      [| repeat split; right; reflexivity].
    destruct (JSON_parse txt) as [[| ps] |];
      repeat split; (left; reflexivity) || (right; reflexivity).
  - destruct (List.filter (isJson toLowerCase) data_files) as [| f rest];
      [repeat split; right; reflexivity |].
    destruct (Viewer.fetch_text (Viewer.url f) w) as [[txt | e] w']; cbn [fst snd];
      [| repeat split; right; reflexivity].
    destruct (JSON_parse txt) as [[| [l |]] |];
      repeat split; (left; reflexivity) || (right; reflexivity).
Qed.

(** When the listing holds a participants file whose body parses to a
    list of names, the roster is that list, the error is clear, the
    spinner is stopped, and the names are numbered 1 to their count. *)
Theorem roster_loads (p : Page World) (data_files : list Viewer.FileData)
    (data_error : option string) (file : Viewer.FileData) (txt : string)
    (names : list string) :
  fst (Viewer.fetch_list (network p)) = Resolved (Viewer.Body true data_files data_error) ->
  List.find (isParticipantsFile toLowerCase) data_files = Some file ->
  fst (Viewer.fetch_text (Viewer.url file) (snd (Viewer.fetch_list (network p))))
    = Resolved txt ->
  JSON_parse txt = Some (JsonValue (Some names)) ->
  state (loadParticipants toLowerCase JSON_parse p) =
    {| participants := names; participantsLoading := false; participantsError := None |}
  /\ map fst (roster (participants (state (loadParticipants toLowerCase JSON_parse p))))
     = seq 1 (length names).
Proof.
  intros Hlist Hfind Htext Hparse.
  assert (E : state (loadParticipants toLowerCase JSON_parse p) =
              {| participants := names; participantsLoading := false;
                 participantsError := None |}).
  { unfold loadParticipants, readJson.
    destruct (Viewer.fetch_list (network p)) as [response w]. cbn [fst snd] in *.
    subst response. rewrite Hfind.
    destruct (Viewer.fetch_text (Viewer.url file) w) as [r w']. cbn [fst] in Htext.
    subst r. rewrite Hparse. reflexivity. }
  rewrite E. split; [reflexivity |]. cbn [participants].
  assert (H : forall i, map fst (roster_from i names) = seq (i + 1) (length names)).
  { clear. induction names as [| n rest IH]; intros i; [reflexivity |].
    cbn [roster_from map fst length seq]. rewrite IH.
    replace (S i + 1) with (S (i + 1)) by lia. reflexivity. }
  exact (H 0).
Qed.

End Loading.

End ParticipantsProofs.

(* ================================================================== *)
(** * The viewer: downloads *)

Module DownloadsProofs.
Import Js Downloads.

Lemma delivered_app (a b : list Effect) : delivered (a ++ b) = delivered a ++ delivered b.
Proof.
  induction a as [| e a IH]; [reflexivity |]. destruct e; cbn; rewrite IH; reflexivity.
Qed.

Lemma delays_app (a b : list Effect) : delays (a ++ b) = delays a ++ delays b.
Proof.
  induction a as [| e a IH]; [reflexivity |]. destruct e; cbn; rewrite IH; reflexivity.
Qed.

Lemma alerts_app (a b : list Effect) : alerts (a ++ b) = alerts a ++ alerts b.
Proof.
  induction a as [| e a IH]; [reflexivity |]. destruct e; cbn; rewrite IH; reflexivity.
Qed.

Lemma saves_app (a b : list Effect) : saves (a ++ b) = saves a ++ saves b.
Proof.
  induction a as [| e a IH]; [reflexivity |]. destruct e; cbn; rewrite IH; reflexivity.
Qed.

Section Downloading.
Context {World Blob Handle : Type} {browser : Browser World Blob Handle}.

Lemma downloadFile_effects (file : Viewer.FileData)
    (directoryHandle : option Handle) (p : Page World) :
  exists e,
    effects (downloadFile file directoryHandle p) = effects p ++ [e]
    /\ delivered [e] = [Viewer.name file]
    /\ delays [e] = []
    /\ alerts [e] = []
    /\ match directoryHandle with
       | None => saves [e] = []
       | Some _ => e = Saved (Viewer.name file)
                   \/ e = Opened (Viewer.url file) (Viewer.name file)
       end
    /\ isDownloadingAll (downloadFile file directoryHandle p) = isDownloadingAll p.
Proof.
  unfold downloadFile.
  destruct (fetch_blob (Viewer.url file) (world p)) as [[blob | err] w].
  - destruct directoryHandle as [h |].
    + destruct (write_file h (Viewer.name file) blob w) as [[u | err] w'];
        eexists; repeat split; auto.
    + eexists; repeat split.
  - eexists; repeat split. destruct directoryHandle; auto.
Qed.

(** One download always delivers the file, once and in one way: saved
    into the directory, downloaded through the blob, or opened from its
    URL when fetching or writing fails; it saves only into a directory it
    was given, and with a directory it never falls back to the blob link;
    it never waits, alerts or touches the busy flag. *)
Theorem downloadFile_delivers_once (file : Viewer.FileData)
    (directoryHandle : option Handle) (p : Page World) :
  let p' := downloadFile file directoryHandle p in
  exists e,
    effects p' = effects p ++ [e]
    /\ delivered [e] = [Viewer.name file]
    /\ delays [e] = []
    /\ alerts [e] = []
    /\ match directoryHandle with
       | None => saves [e] = []
       | Some _ => e = Saved (Viewer.name file)
                   \/ e = Opened (Viewer.url file) (Viewer.name file)
       end
    /\ isDownloadingAll p' = isDownloadingAll p.
Proof. cbv zeta. apply downloadFile_effects. Qed.

Lemma download_each_effects (fs : list Viewer.FileData) (h : option Handle) :
  forall p : Page World,
  exists es,
    effects (download_each fs h p) = effects p ++ es
    /\ delivered es = map Viewer.name fs
    /\ delays es = match h with
                   | Some _ => []
                   | None => repeat 500 (length fs - 1)
                   end
    /\ alerts es = []
    /\ match h with
       | None => saves es = []
       | Some _ => True
       end
    /\ isDownloadingAll (download_each fs h p) = isDownloadingAll p.
Proof.
  induction fs as [| f rest IH]; intros p.
  - exists []. cbn. rewrite app_nil_r. destruct h; repeat split.
  - cbn [download_each].
    destruct (downloadFile_effects f h p) as (e & He & Hd & Hw & Ha & Hs & Hb).
    set (p1 := downloadFile f h p) in *.
    destruct h as [hd |].
    + destruct (IH p1) as (es & Hes & Hd' & Hw' & Ha' & _ & Hb').
      exists (e :: es). rewrite Hes, He, <- app_assoc. cbn [app].
      change (e :: es) with ([e] ++ es).
      rewrite delivered_app, delays_app, alerts_app, Hd, Hw, Ha, Hd', Hw', Ha'.
      repeat split. congruence.
    + destruct rest as [| g rest].
      * exists [e]. cbn [download_each]. repeat split; assumption.
      * destruct (IH (emit (Delay 500) p1)) as (es & Hes & Hd' & Hw' & Ha' & Hs' & Hb').
        exists (e :: Delay 500 :: es). rewrite Hes. cbn [emit effects].
        rewrite He, <- !app_assoc. cbn [app].
        change (e :: Delay 500 :: es) with ([e] ++ [Delay 500] ++ es).
        rewrite !delivered_app, !delays_app, !alerts_app, !saves_app,
          Hd, Hw, Ha, Hs, Hd', Hw', Ha', Hs'.
        cbn [length Nat.sub] in *. rewrite Nat.sub_0_r in Hw'.
        cbn [emit isDownloadingAll] in Hb'.
        repeat split.
        -- cbn. rewrite Nat.sub_0_r. reflexivity.
        -- congruence.
Qed.

Lemma downloadAllFiles_cons (fs : list Viewer.FileData) (p : Page World) :
  fs <> [] ->
  downloadAllFiles fs p =
  let (directoryHandle, p1) := pickDirectory (setIsDownloadingAll true p) in
  setIsDownloadingAll false
    match directoryHandle with
    | Some _ => emit (AlertDone (length fs)) (download_each fs directoryHandle p1)
    | None => download_each fs directoryHandle p1
    end.
Proof. destruct fs; [contradiction | reflexivity]. Qed.

(** A bulk download.  Over the empty list nothing happens.  Otherwise
    every file is delivered once, in order, one way or another, whatever
    fails on the way; with a directory there is no wait and, at the end,
    one alert that reports the number of files asked for, however many
    were really saved; without one there is a wait of 500 ms between
    files, none after the last, nothing is saved and nothing is alerted;
    the busy flag is down at the end. *)
Theorem downloadAllFiles_delivers_all (fs : list Viewer.FileData) (p : Page World) :
  let p' := downloadAllFiles fs p in
  let new := since p p' in
  match fs with
  | [] => p' = p
  | _ =>
      delivered new = map Viewer.name fs
      /\ isDownloadingAll p' = false
      /\ match fst (pickDirectory (setIsDownloadingAll true p)) with
         | Some _ => delays new = [] /\ alerts new = [length fs]
         | None => delays new = repeat 500 (length fs - 1)
                   /\ alerts new = [] /\ saves new = []
         end
  end.
Proof.
  intros p' new. destruct fs as [| x rest]; [reflexivity |].
  remember (x :: rest) as fs eqn:Hfs.
  assert (Hp : effects (snd (pickDirectory (setIsDownloadingAll true p))) = effects p).
  { unfold pickDirectory. destruct showDirectoryPicker as [pick |]; [| reflexivity].
    cbn [setIsDownloadingAll world]. destruct (pick (world p)) as [r w]. reflexivity. }
  unfold new, since, p'. rewrite downloadAllFiles_cons by (subst fs; discriminate).
  destruct (pickDirectory (setIsDownloadingAll true p)) as [h p1]. cbn [fst snd] in *.
  destruct (download_each_effects fs h p1) as (es & Hes & Hd & Hw & Ha & Hs & Hb).
  destruct h as [hd |].
  - cbn [setIsDownloadingAll emit effects isDownloadingAll].
    rewrite Hes, Hp, <- app_assoc, ViewerProofs.skipn_past.
    rewrite delivered_app, delays_app, alerts_app, Hd, Hw, Ha. cbn.
    rewrite app_nil_r. repeat split.
  - cbn [setIsDownloadingAll effects isDownloadingAll].
    rewrite Hes, Hp, ViewerProofs.skipn_past. repeat split; assumption.
Qed.

End Downloading.

End DownloadsProofs.

(* ================================================================== *)
(** * The viewer on top of the facade *)

Module EndToEndProofs.
Import Js EndToEnd.

Section Wired.
Context {World : Type} {utapi : UT.UTApi World}.
Variable now : nat -> string.
Variable query : string -> list (string * string).
Variable fetch_object : string -> World -> Outcome string * World.
Variable toLowerCase : string -> string.

Local Abbreviation backend := (viaFacade now query fetch_object).
Local Abbreviation Page := (Viewer.Page (Facade.Env World)).

(** When the query of the request holds the key as it is, [deleteFile]
    is true exactly when the key is not empty and the provider's
    [deleteFiles] resolves with [success: true]; the provider is called
    once for a key that is not empty and not at all for the empty key. *)
Theorem deleteFile_through_the_facade (fileKey : string) (p : Page) :
  query fileKey = [("key", fileKey)] ->
  fst (Viewer.deleteFile (backend := backend) fileKey p) =
    (if nonempty fileKey
     then match fst (UT.deleteFiles [fileKey] (Facade.world (Viewer.network p))) with
          | Resolved deleteResponse => UT.success deleteResponse
          | Rejected _ => false
          end
     else false)
  /\ Facade.calls (Viewer.network (snd (Viewer.deleteFile (backend := backend) fileKey p))) =
       Facade.calls (Viewer.network p)
       ++ (if nonempty fileKey then [UT.DeleteFiles [fileKey]] else []).
Proof.
  intros Hq. unfold Viewer.deleteFile. cbn [Viewer.fetch_delete viaFacade].
  FacadeProofs.handler. rewrite Hq.
  cbn [Facade.searchParams Facade.get String.eqb Ascii.eqb Bool.eqb].
  destruct (nonempty fileKey).
  - destruct (UT.deleteFiles [fileKey] (Facade.world (Viewer.network p)))
      as [[deleteResponse | e] w]; cbn [fst snd].
    + destruct (UT.success deleteResponse); split; reflexivity.
    + split; reflexivity.
  - cbn. rewrite app_nil_r. split; reflexivity.
Qed.

Lemma loadFiles_error (p : Page) :
  Viewer.error (Viewer.state (snd (Viewer.loadFiles (backend := backend) toLowerCase p))) =
  match fst (Viewer.fetch_list (Backend := backend) (Viewer.network p)) with
  | Resolved (Viewer.Body true _ _) => Viewer.error (Viewer.state p)
  | Resolved (Viewer.NotOk status) => Some ("HTTP error! status: " ++ status)%string
  | Resolved (Viewer.Body false _ (Some e)) =>
      Some (if nonempty e then e else "Dosyalar yüklenemedi")
  | Resolved (Viewer.Body false _ None) => Some "Dosyalar yüklenemedi"
  | Rejected err => Some (errorMessage err)
  end.
Proof.
  unfold Viewer.loadFiles, Viewer.bind, Viewer.fetch_files, Viewer.update, Viewer.ret.
  cbv beta iota. cbn [Viewer.state Viewer.network Viewer.effects].
  destruct (Viewer.fetch_list (Viewer.network p))
    as [[[status | [] data_files [e |]] | err] w]; cbn [fst]; try reflexivity;
    cbv beta iota zeta; cbn [Viewer.state Viewer.network Viewer.effects];
    match goal with
    | |- context [Viewer.load_text ?tf ?m ?q] =>
        pose proof (ViewerProofs.load_text_page (backend := backend) tf m q) as [Hs He];
        destruct (Viewer.load_text tf m q) as [tc p2]
    end;
    cbn [snd] in Hs; cbn [snd Viewer.state]; rewrite Hs; reflexivity.
Qed.

(** What the viewer finds when it asks the facade for the listing: the
    records of a 200, or the bare status 500. *)
Lemma facade_answer (env : Facade.Env World) :
  (exists fs, fst (Viewer.fetch_list (Backend := backend) env) =
              Resolved (Viewer.Body true (map asFileData fs) None)
              /\ fst (Facade.GET now env) =
                   Resolved {| Facade.body := Facade.Listing true fs (length fs);
                               Facade.status := 200 |})
  \/ (exists details,
        fst (Viewer.fetch_list (Backend := backend) env) = Resolved (Viewer.NotOk "500")
        /\ fst (Facade.GET now env) =
             Resolved {| Facade.body :=
                           Facade.ListingError "Dosyalar yüklenirken hata oluştu" details;
                         Facade.status := 500 |}).
Proof.
  cbn [Viewer.fetch_list viaFacade]. FacadeProofs.handler.
  destruct (UT.listFiles (Facade.world env)) as [[response | e] w];
    [| right; eexists; split; reflexivity].
  destruct (UT.truthy response); [| left; exists []; split; reflexivity].
  destruct (UT.truthy (UT.prop response "files")); cbn [negb];
    [| left; exists []; split; reflexivity].
  destruct (UT.prop response "files"); try (right; eexists; split; reflexivity).
  left. eexists. split; reflexivity.
Qed.

(** The viewer behind this facade, the listing request reaching the
    facade and its answer reaching the viewer: the facade answers a
    listing with 200 or a failure with 500; after a 200 the error state is
    as it was; after a 500 it is "HTTP error! status: 500", so the
    facade's own error text is not what the user sees: the viewer stops
    at the status, before it reads the body. *)
Theorem only_the_status_is_shown (p : Page) :
  let p' := snd (Viewer.loadFiles (backend := backend) toLowerCase p) in
  (Viewer.error (Viewer.state p') = Viewer.error (Viewer.state p)
   \/ Viewer.error (Viewer.state p') = Some "HTTP error! status: 500")
  /\ match fst (Facade.GET now (Viewer.network p)) with
     | Resolved r =>
         match Facade.body r with
         | Facade.Listing true _ _ =>
             Facade.status r = 200
             /\ Viewer.error (Viewer.state p') = Viewer.error (Viewer.state p)
         | Facade.ListingError e _ =>
             Facade.status r = 500
             /\ Viewer.error (Viewer.state p') = Some "HTTP error! status: 500"
             /\ Viewer.error (Viewer.state p') <> Some e
         | _ => False
         end
     | Rejected _ => False
     end.
Proof.
  cbv zeta. rewrite loadFiles_error.
  destruct (facade_answer (Viewer.network p)) as [(fs & -> & ->) | (details & -> & ->)];
    cbn [Facade.body Facade.status].
  - split; [left; reflexivity | split; reflexivity].
  - split; [right; reflexivity |]. split; [reflexivity |].
    split; [reflexivity | discriminate].
Qed.

Lemma includes_app (a b : list string) (x : string) :
  Viewer.includes (a ++ b) x = Viewer.includes a x || Viewer.includes b x.
Proof. unfold Viewer.includes. apply existsb_app. Qed.

Lemma known_by_extension (file : Viewer.FileData) :
  Card.no_mime_evidence (Viewer.mimeType toLowerCase file) = true ->
  Viewer.known toLowerCase file = has_known_extension toLowerCase (Viewer.name file).
Proof.
  unfold Card.no_mime_evidence. intros Hm. apply negb_true_iff in Hm.
  apply orb_false_iff in Hm. destruct Hm as [Hm Ht].
  apply orb_false_iff in Hm. destruct Hm as [Hm Ha].
  apply orb_false_iff in Hm. destruct Hm as [Hi Hv].
  unfold Viewer.known, Viewer.getFileType, has_known_extension.
  rewrite Hi, Hv, Ha, Ht. cbn [orb]. unfold Viewer.extension.
  destruct (Viewer.pop (Viewer.split "." (Viewer.name file))) as [e |];
    cbn [option_map Viewer.or_empty]; [| reflexivity].
  rewrite !includes_app.
  destruct (Viewer.includes Viewer.image_extensions (toLowerCase e)); [reflexivity |].
  destruct (Viewer.includes Viewer.video_extensions (toLowerCase e)); [reflexivity |].
  destruct (Viewer.includes Viewer.audio_extensions (toLowerCase e)); [reflexivity |].
  destruct (Viewer.includes Viewer.text_extensions (toLowerCase e)); reflexivity.
Qed.

Lemma gallery_of_items (items : list UT.UploadedFile) :
  Card.no_mime_evidence (Some (toLowerCase "unknown")) = true ->
  forall i,
  map Viewer.key
      (Viewer.supportedFiles toLowerCase (map asFileData (Facade.map_from now i items)))
  = map UT.key (List.filter (fun it => has_known_extension toLowerCase (UT.name it)) items)
  /\ Forall (fun f => Viewer.url f = ("https://utfs.io/f/" ++ Viewer.key f)%string
                      /\ Viewer.type f = Some "unknown"
                      /\ Viewer.size f = Some 0)
            (Viewer.supportedFiles toLowerCase
               (map asFileData (Facade.map_from now i items))).
Proof.
  intros Hm. induction items as [| it rest IH]; intros i; [split; [reflexivity | constructor] |].
  destruct (IH (S i)) as [Hk Hf].
  cbn [Facade.map_from map List.filter]. unfold Viewer.supportedFiles in *.
  cbn [map List.filter].
  assert (E : Viewer.supported
                (Viewer.classified toLowerCase (asFileData (Facade.format now i it)))
              = has_known_extension toLowerCase (UT.name it)).
  { exact (known_by_extension (asFileData (Facade.format now i it)) Hm). }
  rewrite E. destruct (has_known_extension toLowerCase (UT.name it)).
  - cbn [map]. rewrite Hk. split; [reflexivity |].
    constructor; [| exact Hf]. repeat split.
  - split; assumption.
Qed.

(** When the provider answers the listing with a list of files, and
    lower-casing "unknown" gives no MIME prefix, the gallery holds exactly
    the files whose name has an extension of one of the four sets, in the
    provider's order, each with the URL of the template over its key, the
    type "unknown" and the size 0. *)
Theorem gallery_shows_known_extensions (p : Page) (response : UT.JsValue)
    (items : list UT.UploadedFile) (w : World) :
  UT.listFiles (Facade.world (Viewer.network p)) = (Resolved response, w) ->
  UT.truthy response = true ->
  UT.prop response "files" = UT.JsArray items ->
  Card.no_mime_evidence (Some (toLowerCase "unknown")) = true ->
  let files := Viewer.files (Viewer.state
                 (snd (Viewer.loadFiles (backend := backend) toLowerCase p))) in
  map Viewer.key files =
    map UT.key (List.filter (fun it => has_known_extension toLowerCase (UT.name it)) items)
  /\ Forall (fun f => Viewer.url f = ("https://utfs.io/f/" ++ Viewer.key f)%string
                      /\ Viewer.type f = Some "unknown"
                      /\ Viewer.size f = Some 0)
            files.
Proof.
  intros Hcall Hr Hfiles Hm. cbv zeta.
  rewrite (ViewerProofs.loadFiles_files (backend := backend) toLowerCase).
  assert (E : fst (Viewer.fetch_list (Backend := backend) (Viewer.network p)) =
              Resolved (Viewer.Body true
                          (map asFileData (Facade.map_from now 0 items)) None)).
  { cbn [Viewer.fetch_list viaFacade]. FacadeProofs.handler.
    rewrite Hcall, Hr, Hfiles. reflexivity. }
  rewrite E. apply gallery_of_items, Hm.
Qed.

End Wired.

End EndToEndProofs.

(* ================================================================== *)
(** * The classification against the ordered rules *)

Module RulesProofs.
Import Js Viewer.

Lemma split_nonempty (sep : ascii) (s : string) : split sep s <> [].
Proof.
  destruct s as [| c rest]; cbn; [discriminate |].
  destruct (Ascii.eqb c sep); [discriminate |].
  destruct (split sep rest); discriminate.
Qed.

Lemma pop_tail (x : string) (a : list string) : a <> [] -> pop (x :: a) = pop a.
Proof. destruct a; [contradiction | reflexivity]. Qed.

(** A string without the separator is its own single segment. *)
Lemma split_without (sep : ascii) (s : string) :
  ~ In sep (list_ascii_of_string s) -> split sep s = [s].
Proof.
  induction s as [| c rest IH]; intros Hfree; [reflexivity |].
  cbn [split]. cbn [list_ascii_of_string In] in Hfree.
  destruct (Ascii.eqb_spec c sep) as [-> | Hc]; [tauto |].
  rewrite IH by tauto. reflexivity.
Qed.

(** The segments after a separator are the last ones of the whole. *)
Lemma split_after (sep : ascii) (ext : string) (stem : string) :
  exists seg segs,
    split sep (stem ++ String sep ext) = seg :: segs
    /\ segs <> []
    /\ pop segs = pop (split sep ext).
Proof.
  induction stem as [| c stem (seg & segs & E & Hne & Hpop)].
  - exists EmptyString, (split sep ext).
    cbn [append split]. rewrite Ascii.eqb_refl.
    split; [reflexivity | split; [apply split_nonempty | reflexivity]].
  - cbn [append split]. rewrite E. destruct (Ascii.eqb c sep).
    + exists EmptyString, (seg :: segs).
      split; [reflexivity | split; [discriminate |]].
      rewrite pop_tail by exact Hne. exact Hpop.
    + exists (String c seg), segs. split; [reflexivity | split; assumption].
Qed.

(** Every name has a last segment. *)
Lemma last_segment_exists (name : string) : exists ext, Rules.last_segment name ext.
Proof.
  induction name as [| c rest (ext & Hfree & [-> | [stem ->]])].
  - exists EmptyString. split; [intros [] | left; reflexivity].
  - destruct (Ascii.eqb_spec c ".") as [-> | Hc].
    + exists ext. split; [exact Hfree | right; exists EmptyString; reflexivity].
    + exists (String c ext). split; [| left; reflexivity].
      cbn [list_ascii_of_string In]. intros [H | H]; [congruence | exact (Hfree H)].
  - exists ext. split; [exact Hfree | right; exists (String c stem); reflexivity].
Qed.

Lemma pop_last_segment (name ext : string) :
  Rules.last_segment name ext -> pop (split "." name) = Some ext.
Proof.
  intros [Hfree [-> | [stem ->]]].
  - rewrite split_without by exact Hfree. reflexivity.
  - destruct (split_after "." ext stem) as (seg & segs & E & Hne & Hpop).
    rewrite E, pop_tail by exact Hne. rewrite Hpop.
    rewrite split_without by exact Hfree. reflexivity.
Qed.

Section Classified.
Variable toLowerCase : string -> string.

Lemma getFileType_rules (file : FileData) (ext : string) :
  pop (split "." (name file)) = Some ext ->
  getFileType toLowerCase file =
  Rules.classify (option_map toLowerCase (type file)) (toLowerCase ext).
Proof.
  intros Hpop. unfold getFileType, extension, mimeType. rewrite Hpop.
  cbn [option_map or_empty].
  unfold Rules.classify, Rules.ordered, List.find, Rules.matches, startsWith, includes.
  cbn [Rules.mimePrefix Rules.extensions Rules.result].
  unfold image_extensions, video_extensions, audio_extensions, text_extensions.
  destruct (option_map toLowerCase (type file)) as [m |].
  - destruct (String.prefix "image/" m); cbn [orb]; [reflexivity |].
    destruct (existsb _ ["jpg"; _; _; _; _; _; _]); [reflexivity |].
    destruct (String.prefix "video/" m); cbn [orb]; [reflexivity |].
    destruct (existsb _ ["mp4"; _; _; _; _; _; _]); [reflexivity |].
    destruct (String.prefix "audio/" m); cbn [orb]; [reflexivity |].
    destruct (existsb _ ["mp3"; _; _; _; _; _]); [reflexivity |].
    destruct (String.prefix "text/" m); cbn [orb]; [reflexivity |].
    destruct (existsb _ ["txt"; _; _; _]); reflexivity.
  - cbn [orb].
    destruct (existsb _ ["jpg"; _; _; _; _; _; _]); [reflexivity |].
    destruct (existsb _ ["mp4"; _; _; _; _; _; _]); [reflexivity |].
    destruct (existsb _ ["mp3"; _; _; _; _; _]); [reflexivity |].
    destruct (existsb _ ["txt"; _; _; _]); reflexivity.
Qed.

(** C1, as amended.  Let [ext] be what follows the last dot of a
    record's name (the whole name when it has no dot).  The type
    [getFileType] gives the record is the one the ordered rules give its
    lower-cased MIME type and lower-cased [ext]: the pairs for image,
    video, audio and text in that order, each matching on the MIME prefix
    when a MIME type is present and else on the extension set, the first
    match taken and unknown ([None]) when none matches.  So any record
    with the same MIME type and the same last segment gets the same type.
    The record that is stored carries that type, and classifying the
    stored record again gives it again whenever the record of the listing
    has a name that is not empty. *)
Theorem getFileType_by_ordered_rules (file : FileData) (ext : string) :
  Rules.last_segment (name file) ext ->
  getFileType toLowerCase file =
    Rules.classify (option_map toLowerCase (type file)) (toLowerCase ext)
  /\ map Rules.result Rules.ordered = [image; video; audio; text]
  /\ (forall other,
        type other = type file -> Rules.last_segment (name other) ext ->
        getFileType toLowerCase other = getFileType toLowerCase file)
  /\ fileType (classified toLowerCase file) = getFileType toLowerCase file
  /\ (name file <> "" ->
      getFileType toLowerCase (classified toLowerCase file) =
      fileType (classified toLowerCase file)).
Proof.
  intros Hext. apply pop_last_segment in Hext.
  split; [apply getFileType_rules, Hext |].
  split; [reflexivity |].
  split.
  { intros other Hty Hother. apply pop_last_segment in Hother.
    rewrite (getFileType_rules other ext Hother), (getFileType_rules file ext Hext), Hty.
    reflexivity. }
  split; [reflexivity |].
  intros Hname. cbn [classified fileType].
  unfold getFileType, extension, mimeType, classified; cbn.
  unfold nonempty. destruct (String.eqb_spec (name file) ""); [contradiction |].
  reflexivity.
Qed.

End Classified.

End RulesProofs.

(* ================================================================== *)
(** * More theorems at concrete pages *)

Module MoreInstances.
Import Js Demo.


(** The first load of the scenario's listing, whose keys are [a], [b]
    and [c]. *)
Lemma unique_keys_kept_witness :
  let p := Viewer.mount (serving (scenario None) []) in
  NoDup (map Viewer.key (Viewer.files (Viewer.state p)))
  /\ NoDup (map Viewer.key (scenario None))
  /\ NoDup (map Viewer.key
              (Viewer.files (Viewer.state
                 (snd (Viewer.perform Viewer.ascii_toLowerCase Viewer.LoadFiles p))))).
Proof.
  intros p.
  assert (H0 : NoDup (map Viewer.key (Viewer.files (Viewer.state p)))) by constructor.
  assert (H1 : NoDup (map Viewer.key (scenario None))).
  { cbn. repeat constructor; cbn; intuition discriminate. }
  split; [exact H0 | split; [exact H1 |]].
  exact (ViewerMore.unique_keys_kept Viewer.ascii_toLowerCase Viewer.LoadFiles p H0 H1).
Defined.

(** A listing with a photo and [Katilimcilar.JSON], whose body holds Ali
    and Veli. *)
Lemma roster_loads_witness :
  let p := Samples.withRoster in
  let data_files := [record "a" "photo.jpg" None; record "p" "Katilimcilar.JSON" None] in
  let file := record "p" "Katilimcilar.JSON" None in
  fst (Viewer.fetch_list (Participants.network p)) = Resolved (Viewer.Body true data_files None)
  /\ List.find (Participants.isParticipantsFile Viewer.ascii_toLowerCase) data_files = Some file
  /\ fst (Viewer.fetch_text (Viewer.url file)
            (snd (Viewer.fetch_list (Participants.network p)))) = Resolved "merhaba"
  /\ Samples.parse "merhaba" = Some (Participants.JsonValue (Some ["Ali"; "Veli"]))
  /\ Participants.state (Participants.loadParticipants Viewer.ascii_toLowerCase Samples.parse p) =
       {| Participants.participants := ["Ali"; "Veli"];
          Participants.participantsLoading := false;
          Participants.participantsError := None |}
  /\ map fst (Participants.roster
                (Participants.participants
                   (Participants.state
                      (Participants.loadParticipants Viewer.ascii_toLowerCase
                         Samples.parse p)))) = seq 1 2.
Proof.
  intros p data_files file.
  assert (H1 : fst (Viewer.fetch_list (Participants.network p)) =
               Resolved (Viewer.Body true data_files None)) by reflexivity.
  assert (H2 : List.find (Participants.isParticipantsFile Viewer.ascii_toLowerCase)
                 data_files = Some file) by reflexivity.
  assert (H3 : fst (Viewer.fetch_text (Viewer.url file)
                      (snd (Viewer.fetch_list (Participants.network p)))) =
               Resolved "merhaba") by reflexivity.
  assert (H4 : Samples.parse "merhaba" =
               Some (Participants.JsonValue (Some ["Ali"; "Veli"]))) by reflexivity.
  split; [exact H1 | split; [exact H2 | split; [exact H3 | split; [exact H4 |]]]].
  exact (ParticipantsProofs.roster_loads Viewer.ascii_toLowerCase Samples.parse p
           data_files None file "merhaba" ["Ali"; "Veli"] H1 H2 H3 H4).
Defined.

(** The viewer deletes the key [abc] through the facade, on a provider
    that accepts. *)
Lemma deleteFile_through_the_facade_witness :
  let p := Viewer.mount (env Samples.twoFiles) in
  let backend := EndToEnd.viaFacade noon Samples.plainQuery Samples.emptyObjects in
  Samples.plainQuery "abc" = [("key", "abc")]
  /\ fst (Viewer.deleteFile (backend := backend) "abc" p) = true
  /\ Facade.calls (Viewer.network (snd (Viewer.deleteFile (backend := backend) "abc" p)))
     = [UT.DeleteFiles ["abc"]].
Proof.
  intros p backend.
  assert (H : Samples.plainQuery "abc" = [("key", "abc")]) by reflexivity.
  split; [exact H |].
  exact (EndToEndProofs.deleteFile_through_the_facade noon Samples.plainQuery
           Samples.emptyObjects "abc" p H).
Defined.

(** The provider lists [photo.JPG] and [setup.exe]; the gallery holds
    the photo alone. *)
Lemma gallery_shows_known_extensions_witness :
  let p := Viewer.mount (env Samples.twoFiles) in
  let backend := EndToEnd.viaFacade noon Samples.plainQuery Samples.emptyObjects in
  let items := [uploaded "a" "photo.JPG"; uploaded "x" "setup.exe"] in
  let response := UT.JsObject [("files", UT.JsArray items)] in
  let files := Viewer.files (Viewer.state
                 (snd (Viewer.loadFiles (backend := backend) Viewer.ascii_toLowerCase p))) in
  UT.listFiles (Facade.world (Viewer.network p)) = (Resolved response, Samples.twoFiles)
  /\ UT.truthy response = true
  /\ UT.prop response "files" = UT.JsArray items
  /\ Card.no_mime_evidence (Some (Viewer.ascii_toLowerCase "unknown")) = true
  /\ map Viewer.key files = ["a"]
  /\ Forall (fun f => Viewer.url f = ("https://utfs.io/f/" ++ Viewer.key f)%string
                      /\ Viewer.type f = Some "unknown"
                      /\ Viewer.size f = Some 0)
            files.
Proof.
  intros p backend items response files.
  assert (H1 : UT.listFiles (Facade.world (Viewer.network p)) =
               (Resolved response, Samples.twoFiles)) by reflexivity.
  assert (H2 : UT.truthy response = true) by reflexivity.
  assert (H3 : UT.prop response "files" = UT.JsArray items) by reflexivity.
  assert (H4 : Card.no_mime_evidence (Some (Viewer.ascii_toLowerCase "unknown")) = true)
    by reflexivity.
  split; [exact H1 | split; [exact H2 | split; [exact H3 | split; [exact H4 |]]]].
  exact (EndToEndProofs.gallery_shows_known_extensions noon Samples.plainQuery
           Samples.emptyObjects Viewer.ascii_toLowerCase p response items
           Samples.twoFiles H1 H2 H3 H4).
Defined.

(** A photo with a telling name and no MIME type. *)
Lemma getFileType_by_ordered_rules_witness :
  let file := Demo.record "a" "photo.jpg" None in
  Rules.last_segment (Viewer.name file) "jpg"
  /\ Viewer.getFileType Viewer.ascii_toLowerCase file =
       Rules.classify (option_map Viewer.ascii_toLowerCase (Viewer.type file))
                      (Viewer.ascii_toLowerCase "jpg")
  /\ Viewer.getFileType Viewer.ascii_toLowerCase file = Some Viewer.image.
Proof.
  intros file.
  assert (Hext : Rules.last_segment (Viewer.name file) "jpg").
  { split.
    - cbn. intros [H | [H | [H | []]]]; discriminate H.
    - right. exists "photo". reflexivity. }
  split; [exact Hext |].
  split; [| reflexivity].
  exact (proj1 (RulesProofs.getFileType_by_ordered_rules
                  Viewer.ascii_toLowerCase file "jpg" Hext)).
Defined.

(** A record of the listing whose own name is empty is classified by
    its MIME type alone, and stored under its [fileName]: the stored
    record carries the type video, and classifying it again gives
    image. *)
Lemma reclassified_counterexample :
  let file := {| Viewer.key := "k"; Viewer.name := ""; Viewer.fileName := Some "x.jpg";
                 Viewer.url := "https://utfs.io/f/k"; Viewer.size := None;
                 Viewer.fileSize := None; Viewer.type := Some "video/mp4";
                 Viewer.fileType := None |} in
  let stored := Viewer.classified Viewer.ascii_toLowerCase file in
  Viewer.name stored = "x.jpg"
  /\ Viewer.fileType stored = Some Viewer.video
  /\ Viewer.getFileType Viewer.ascii_toLowerCase stored = Some Viewer.image
  /\ Viewer.getFileType Viewer.ascii_toLowerCase stored <> Viewer.fileType stored.
Proof.
  intros file stored. repeat split. discriminate.
Qed.

End MoreInstances.
